(** * Marketplace storefront client: session gating, catalog query,
      listing creation and order gating

    A shallow embedding of the React components of the storefront
    ([ProtectedRoute.js], [ServiceDetail.js], the [Marketplace] component
    and [CreateService.js]) together with the part of the JavaScript
    runtime they rely on: strings as sequences of UTF-16 code units,
    [String.prototype.trim] and [split], and Number values produced by
    [parseFloat] and [parseInt].

    Components are modelled as their state (one field per [useState]
    hook) and one transition per handler or callback; an asynchronous
    handler is cut at each [await] / callback boundary, and the promises
    or readers that are still outstanding are part of the state. *)

From Stdlib Require Import List Bool Arith ZArith NArith Lia String Ascii.
Import ListNotations.

Set Implicit Arguments.

(* ================================================================== *)
(** * The JavaScript values the components compute with               *)
(* ================================================================== *)

Module JS.

(** A string is a sequence of UTF-16 code units. *)
Definition str : Type := list N.

(** String literals of the source (ASCII only). *)
Definition lit (s : string) : str :=
  map N_of_ascii (list_ascii_of_string s).

Fixpoint str_eqb (a b : str) : bool :=
  match a, b with
  | [], [] => true
  | x :: a', y :: b' => N.eqb x y && str_eqb a' b'
  | _, _ => false
  end.

(** [ToBoolean] on a string: only the empty string is falsy. *)
Definition truthy (s : str) : bool :=
  match s with [] => false | _ :: _ => true end.

(** [undefined] or a string; [ToBoolean] of [undefined] is [false]. *)
Definition truthy_opt (v : option str) : bool :=
  match v with None => false | Some s => truthy s end.

(** WhiteSpace and LineTerminator code points (ECMA-262, 12.2 and
    12.3): TAB, LF, VT, FF, CR, SP, NBSP, the Zs category, LS, PS and
    ZWNBSP. *)
Definition is_white_space (c : N) : bool :=
  existsb (N.eqb c)
    [9; 10; 11; 12; 13; 32; 160; 5760; 8232; 8233; 8239; 8287; 12288;
     65279]%N
  || (N.leb 8192 c && N.leb c 8202).

Fixpoint trimStart (s : str) : str :=
  match s with
  | [] => []
  | c :: r => if is_white_space c then trimStart r else s
  end.

Definition trimEnd (s : str) : str := rev (trimStart (rev s)).

(** [String.prototype.trim]. *)
Definition trim (s : str) : str := trimEnd (trimStart s).

(** [String.prototype.split] with a one-code-unit separator; the
    result always has at least one segment. *)
Fixpoint split (sep : N) (s : str) : list str :=
  match s with
  | [] => [[]]
  | c :: r =>
      if N.eqb c sep then [] :: split sep r
      else match split sep r with
           | h :: t => (c :: h) :: t
           | [] => [[c]]
           end
  end.

Definition comma : N := 44.

(** ** Number values

    A Number is NaN, an infinity, or a finite binary64 value
    [(-1)^neg * m * 2^e].  Finite values are kept in the normal form
    where [m] is odd, or [m = 0] and [e = 0]; the sign of zero is
    kept. *)
Inductive number : Type :=
| NaN
| Infinity (neg : bool)
| Finite (neg : bool) (m : N) (e : Z).

Definition zero : number := Finite false 0 0.

Fixpoint strip_twos (p : positive) (e : Z) : positive * Z :=
  match p with
  | xO p' => strip_twos p' (e + 1)
  | _ => (p, e)
  end.

Definition normal (neg : bool) (m e : Z) : number :=
  match m with
  | Zpos p => let (p', e') := strip_twos p e in Finite neg (Npos p') e'
  | _ => Finite neg 0 0
  end.

(** The [k] with [2^k <= a/b < 2^(k+1)], for positive [a] and [b]. *)
Definition floor_log2_ratio (a b : Z) : Z :=
  let k := (Z.log2 a - Z.log2 b)%Z in
  if (if 0 <=? k then b * 2 ^ k <=? a else b <=? a * 2 ^ (- k))%Z
  then k else (k - 1)%Z.

(** The Number value for the positive rational [a/b]: round to the
    nearest binary64 value, ties to even, with gradual underflow below
    [2^-1022] and overflow to infinity from [2^1024]. *)
Definition round_ratio (neg : bool) (a b : Z) : number :=
  let e := Z.max (floor_log2_ratio a b - 52) (-1074) in
  let num := (if e <? 0 then a * 2 ^ (- e) else a)%Z in
  let den := (if e <? 0 then b else b * 2 ^ e)%Z in
  let q := (num / den)%Z in
  let r := (num mod den)%Z in
  let m := (if (den <? 2 * r) || ((den =? 2 * r) && Z.odd q)
            then q + 1 else q)%Z in
  if ((971 <? e) || ((e =? 971) && (2 ^ 53 <=? m)))%Z
  then Infinity neg
  else normal neg m e.

(** The Number value of the decimal [d * 10^x]. *)
Definition of_decimal (neg : bool) (d : N) (x : Z) : number :=
  if N.eqb d 0 then Finite neg 0 0
  else if (0 <=? x)%Z then round_ratio neg (Z.of_N d * 10 ^ x) 1
  else round_ratio neg (Z.of_N d) (10 ^ (- x)).

(** [a <= b] on Numbers: false as soon as one side is NaN. *)
Definition signed (neg : bool) (m : N) : Z :=
  if neg then (- Z.of_N m)%Z else Z.of_N m.

Definition number_le (a b : number) : bool :=
  match a, b with
  | NaN, _ | _, NaN => false
  | Infinity true, _ => true
  | _, Infinity false => true
  | Infinity false, _ => false
  | _, Infinity true => false
  | Finite na ma ea, Finite nb mb eb =>
      let k := Z.min ea eb in
      (signed na ma * 2 ^ (ea - k) <=? signed nb mb * 2 ^ (eb - k))%Z
  end.

(** ** Parsing *)

Definition digit_in (radix : N) (c : N) : option N :=
  let v :=
    if (N.leb 48 c && N.leb c 57) then Some (c - 48)%N
    else if (N.leb 97 c && N.leb c 122) then Some (c - 87)%N
    else if (N.leb 65 c && N.leb c 90) then Some (c - 55)%N
    else None in
  match v with
  | Some d => if N.ltb d radix then Some d else None
  | None => None
  end.

(** The longest prefix of digits in [radix], as digit values, and the
    rest of the string. *)
Fixpoint span_digits (radix : N) (s : str) : list N * str :=
  match s with
  | [] => ([], [])
  | c :: r =>
      match digit_in radix c with
      | Some d => let (ds, rest) := span_digits radix r in (d :: ds, rest)
      | None => ([], s)
      end
  end.

Definition digits_value (radix : N) (ds : list N) : N :=
  fold_left (fun acc d => (acc * radix + d)%N) ds 0%N.

(** An optional sign in front of [s]: whether it is a minus, and the
    rest. *)
Definition take_sign (s : str) : bool * str :=
  match s with
  | 43%N :: r => (false, r)
  | 45%N :: r => (true, r)
  | _ => (false, s)
  end.

(** ExponentPart_opt in front of [s]: the exponent, 0 when there is no
    well-formed exponent part. *)
Definition exponent_part (s : str) : Z :=
  match s with
  | c :: r =>
      if N.eqb c 101 || N.eqb c 69 then
        let (neg, r') := take_sign r in
        match span_digits 10 r' with
        | ([], _) => 0%Z
        | (ds, _) =>
            let v := Z.of_N (digits_value 10 ds) in
            if neg then (- v)%Z else v
        end
      else 0%Z
  | [] => 0%Z
  end.

Fixpoint starts_with (p s : str) : bool :=
  match p, s with
  | [], _ => true
  | x :: p', y :: s' => N.eqb x y && starts_with p' s'
  | _ :: _, [] => false
  end.

(** The longest prefix of [s] that is a StrUnsignedDecimalLiteral
    other than [Infinity], as mantissa and decimal exponent. *)
Definition unsigned_decimal (s : str) : option (N * Z) :=
  let (ip, r1) := span_digits 10 s in
  let '(fp, r2) :=
    match r1 with
    | 46%N :: r =>
        let (fp, r2) := span_digits 10 r in
        match ip, fp with
        | [], [] => ([], r1)
        | _, _ => (fp, r2)
        end
    | _ => ([], r1)
    end in
  match ip, fp with
  | [], [] => None
  | _, _ =>
      Some (digits_value 10 (ip ++ fp)%list,
            (exponent_part r2 - Z.of_nat (List.length fp))%Z)
  end.

(** [parseFloat] (ECMA-262, 19.2.4). *)
Definition parseFloat (s : str) : number :=
  let (neg, r) := take_sign (trimStart s) in
  if starts_with (lit "Infinity") r then Infinity neg
  else match unsigned_decimal r with
       | Some (d, x) => of_decimal neg d x
       | None => NaN
       end.

(** [parseInt] with the radix argument omitted (ECMA-262, 19.2.5). *)
Definition parseInt (s : str) : number :=
  let (neg, r) := take_sign (trimStart s) in
  let (radix, r') :=
    match r with
    | 48%N :: 120%N :: rest => (16%N, rest)
    | 48%N :: 88%N :: rest => (16%N, rest)
    | _ => (10%N, r)
    end in
  match span_digits radix r' with
  | ([], _) => NaN
  | (ds, _) => of_decimal neg (digits_value radix ds) 0
  end.

End JS.

(* ================================================================== *)
(** * The session as the components read it ([useAuth])               *)
(* ================================================================== *)

Module Auth.

Record User : Type := {
  id : JS.str;
  full_name : JS.str;
  user_type : JS.str
}.

(** The two fields of the context value the components destructure:
    [user] is [null] ([None]) when nobody is signed in. *)
Record context : Type := {
  user : option User;
  loading : bool
}.

End Auth.

(* ================================================================== *)
(** * [components/ProtectedRoute.js]                                  *)
(* ================================================================== *)

Module Guard.

(** What the component returns. *)
Inductive element : Type :=
| Spinner
| Navigate (to : JS.str)
| Children.

(** [user.user_type !== requiredUserType], where the prop is [null]
    or a string: a string is never strictly equal to [null]. *)
Definition differs (t : JS.str) (required : option JS.str) : bool :=
  match required with
  | Some r => negb (JS.str_eqb t r)
  | None => true
  end.

Definition ProtectedRoute (requiredUserType : option JS.str)
    (auth : Auth.context) : element :=
  if Auth.loading auth then Spinner
  else match Auth.user auth with
       | None => Navigate (JS.lit "/login")
       | Some user =>
           if JS.truthy_opt requiredUserType
              && differs (Auth.user_type user) requiredUserType
           then Navigate (JS.lit "/dashboard")
           else Children
       end.

End Guard.

(* ================================================================== *)
(** * [pages/ServiceDetail.js]: the order side bar                    *)
(* ================================================================== *)

Module ServiceDetail.

Record Service : Type := {
  id : JS.str;
  creator_id : JS.str;
  title : JS.str
}.

(** The four alternatives of the conditional chain in the side bar:
    the requirements form with the "Order Now" button, "This is your
    service", "Only buyers can order services", and "Sign in to order
    this service". *)
Inductive sidebar : Type :=
| OrderForm
| OwnService
| OnlyBuyers
| SignIn.

Definition render_sidebar (user : option Auth.User) (service : Service)
    : sidebar :=
  match user with
  | None => SignIn
  | Some u =>
      if JS.str_eqb (Auth.user_type u) (JS.lit "buyer")
         && negb (JS.str_eqb (Auth.id u) (creator_id service))
      then OrderForm
      else if JS.str_eqb (Auth.id u) (creator_id service)
      then OwnService
      else if JS.str_eqb (Auth.user_type u) (JS.lit "creator")
      then OnlyBuyers
      else SignIn
  end.

(** The reading of the order gate in which a creator is told that
    creators cannot order whether or not the listing is theirs. *)
Definition creator_always_refused : Prop :=
  forall (u : Auth.User) (service : Service),
    Auth.user_type u = JS.lit "creator" ->
    render_sidebar (Some u) service = OnlyBuyers.

End ServiceDetail.

(* ================================================================== *)
(** * The [Marketplace] component: catalog query                      *)
(* ================================================================== *)

Module Marketplace.

Record Filters : Type := {
  search : JS.str;
  category : JS.str;
  minPrice : JS.str;
  maxPrice : JS.str
}.

Definition no_filters : Filters :=
  {| search := []; category := []; minPrice := []; maxPrice := [] |}.

(** The names of the four filter inputs. *)
Inductive input : Type := Search | Category | MinPrice | MaxPrice.

Definition set_filter (name : input) (value : JS.str) (f : Filters)
    : Filters :=
  match name with
  | Search =>
      {| search := value; category := category f;
         minPrice := minPrice f; maxPrice := maxPrice f |}
  | Category =>
      {| search := search f; category := value;
         minPrice := minPrice f; maxPrice := maxPrice f |}
  | MinPrice =>
      {| search := search f; category := category f;
         minPrice := value; maxPrice := maxPrice f |}
  | MaxPrice =>
      {| search := search f; category := category f;
         minPrice := minPrice f; maxPrice := value |}
  end.

(** The [URLSearchParams] built by [fetchServices]: a filter that is
    the empty string is left out. *)
Definition append_if (key : string) (value : JS.str)
    (params : list (JS.str * JS.str)) : list (JS.str * JS.str) :=
  if JS.truthy value then params ++ [(JS.lit key, value)] else params.

Definition query_params (f : Filters) : list (JS.str * JS.str) :=
  append_if "max_price" (maxPrice f)
    (append_if "min_price" (minPrice f)
       (append_if "category" (category f)
          (append_if "search" (search f) []))).

(** A GET that has been sent and not yet settled; [seq] numbers the
    requests in the order they were issued. *)
Record Request : Type := {
  seq : nat;
  params : list (JS.str * JS.str)
}.

Section Component.

(** The elements of [response.data]. *)
Variable Item : Type.

Record State : Type := {
  services : list Item;
  loading : bool;
  filters : Filters;
  issued : nat;
  inflight : list Request
}.

(** The values given to [useState]. *)
Definition initial : State :=
  {| services := []; loading := true; filters := no_filters;
     issued := 0; inflight := [] |}.

(** [fetchServices] up to its [await]: [setLoading(true)] and the
    request built from the current filters is sent. *)
Definition fetchServices (st : State) : State :=
  {| services := services st;
     loading := true;
     filters := filters st;
     issued := S (issued st);
     inflight := inflight st ++
                 [{| seq := issued st;
                     params := query_params (filters st) |}] |}.

Definition setFilters (f : Filters) (st : State) : State :=
  {| services := services st; loading := loading st; filters := f;
     issued := issued st; inflight := inflight st |}.

Definition is_inflight (n : nat) (st : State) : bool :=
  existsb (fun r => Nat.eqb (seq r) n) (inflight st).

Definition settle (n : nat) (st : State) : list Request :=
  filter (fun r => negb (Nat.eqb (seq r) n)) (inflight st).

(** [fetchServices] after its [await], when the promise of request
    [n] is fulfilled: [setServices(response.data)], then the
    [finally] block. *)
Definition resolved (n : nat) (data : list Item) (st : State) : State :=
  if is_inflight n st then
    {| services := data; loading := false; filters := filters st;
       issued := issued st; inflight := settle n st |}
  else st.

(** ... and when it is rejected: the [catch] block only logs. *)
Definition rejected (n : nat) (st : State) : State :=
  if is_inflight n st then
    {| services := services st; loading := false;
       filters := filters st; issued := issued st;
       inflight := settle n st |}
  else st.

Inductive event : Type :=
| FilterChange (name : input) (value : JS.str)
| ClearFilters
| Resolved (n : nat) (data : list Item)
| Rejected (n : nat).

(** One turn of the event loop.  A change of [filters] re-runs the
    effect, which calls [fetchServices]. *)
Definition step (st : State) (ev : event) : State :=
  match ev with
  | FilterChange name value =>
      fetchServices (setFilters (set_filter name value (filters st)) st)
  | ClearFilters => fetchServices (setFilters no_filters st)
  | Resolved n data => resolved n data st
  | Rejected n => rejected n st
  end.

Definition run (st : State) (evs : list event) : State :=
  fold_left step evs st.

(** The component after mounting: the effect has run once. *)
Definition mounted : State := fetchServices initial.

(** "Last request wins": once the newer of two requests in flight
    has resolved, the older one resolving does not change what is
    displayed. *)
Definition last_request_wins : Prop :=
  forall (st : State) (older newer : Request)
         (d_old d_new : list Item),
    In older (inflight st) -> In newer (inflight st) ->
    seq older < seq newer ->
    services (resolved (seq older) d_old
                (resolved (seq newer) d_new st)) = d_new.

End Component.

End Marketplace.

(* ================================================================== *)
(** * [pages/CreateService.js]: the listing draft                     *)
(* ================================================================== *)

Module CreateService.

Import JS.

(** The [formData] object: every field is the text of its input. *)
Record FormData : Type := {
  title : str;
  description : str;
  category : str;
  tags : str;
  base_price : str;
  delivery_time_days : str;
  revisions_included : str
}.

(** The names of the form's inputs. *)
Inductive input : Type :=
| Title | Description | Category | Tags | BasePrice | DeliveryTimeDays
| RevisionsIncluded.

(** [{...prev, [e.target.name]: e.target.value}]. *)
Definition set_field (name : input) (value : str) (fd : FormData)
    : FormData :=
  {| title := match name with Title => value | _ => title fd end;
     description :=
       match name with Description => value | _ => description fd end;
     category := match name with Category => value | _ => category fd end;
     tags := match name with Tags => value | _ => tags fd end;
     base_price :=
       match name with BasePrice => value | _ => base_price fd end;
     delivery_time_days :=
       match name with
       | DeliveryTimeDays => value
       | _ => delivery_time_days fd
       end;
     revisions_included :=
       match name with
       | RevisionsIncluded => value
       | _ => revisions_included fd
       end |}.

(** A selected file: its size in bytes and the data URL that
    [FileReader.readAsDataURL] produces for it. *)
Record File : Type := {
  name : str;
  size : N;
  dataURL : str
}.

(** An entry of the [images] array: [undefined] ([None]) when the data
    URL had no comma. *)
Definition image : Type := option str.

(** [event.target.result.split(',')[1]]. *)
Definition base64_of (result : str) : image :=
  nth_error (split comma result) 1.

(** The body of the POST: [formData] with the numeric fields coerced,
    the tags split and the images added. *)
Record ServiceData : Type := {
  sd_title : str;
  sd_description : str;
  sd_category : str;
  sd_tags : list str;
  sd_base_price : number;
  sd_delivery_time_days : number;
  sd_revisions_included : number;
  sd_images : list image
}.

Definition serviceData (fd : FormData) (images : list image)
    : ServiceData :=
  {| sd_title := title fd;
     sd_description := description fd;
     sd_category := category fd;
     sd_tags := filter truthy (map trim (split comma (tags fd)));
     sd_base_price := parseFloat (base_price fd);
     sd_delivery_time_days := parseInt (delivery_time_days fd);
     sd_revisions_included := parseInt (revisions_included fd);
     sd_images := images |}.

(** The component: its four [useState] cells, the file reads and the
    POSTs that are outstanding, and the route given to [navigate]. *)
Record State : Type := {
  formData : FormData;
  images : list image;
  error : str;
  loading : bool;
  readers : list File;
  posts : list ServiceData;
  navigated : option str
}.

Definition initial : State :=
  {| formData :=
       {| title := []; description := [];
          category := lit "graphic-design"; tags := [];
          base_price := []; delivery_time_days := [];
          revisions_included := lit "1" |};
     images := []; error := []; loading := false;
     readers := []; posts := []; navigated := None |}.

Definition setFormData (fd : FormData) (st : State) : State :=
  {| formData := fd; images := images st; error := error st;
     loading := loading st; readers := readers st; posts := posts st;
     navigated := navigated st |}.

Definition setImages (imgs : list image) (st : State) : State :=
  {| formData := formData st; images := imgs; error := error st;
     loading := loading st; readers := readers st; posts := posts st;
     navigated := navigated st |}.

Definition setError (msg : str) (st : State) : State :=
  {| formData := formData st; images := images st; error := msg;
     loading := loading st; readers := readers st; posts := posts st;
     navigated := navigated st |}.

Definition setLoading (b : bool) (st : State) : State :=
  {| formData := formData st; images := images st; error := error st;
     loading := b; readers := readers st; posts := posts st;
     navigated := navigated st |}.

Definition set_readers (rs : list File) (st : State) : State :=
  {| formData := formData st; images := images st; error := error st;
     loading := loading st; readers := rs; posts := posts st;
     navigated := navigated st |}.

Definition set_posts (ps : list ServiceData) (st : State) : State :=
  {| formData := formData st; images := images st; error := error st;
     loading := loading st; readers := readers st; posts := ps;
     navigated := navigated st |}.

Definition navigate (to : str) (st : State) : State :=
  {| formData := formData st; images := images st; error := error st;
     loading := loading st; readers := readers st; posts := posts st;
     navigated := Some to |}.

Definition handleChange (name : input) (value : str) (st : State)
    : State :=
  setFormData (set_field name value (formData st)) st.

(** ** Attaching images *)

Definition max_size : N := 5 * 1024 * 1024.

(** The callback given to [files.forEach]: an oversized file sets the
    error and is left out, any other file gets a reader of its own. *)
Definition upload_one (st : State) (file : File) : State :=
  if N.ltb max_size (size file)
  then setError (lit "Image files must be less than 5MB") st
  else set_readers (readers st ++ [file]) st.

Definition handleImageUpload (files : list File) (st : State) : State :=
  fold_left upload_one files st.

(** [l] without its [k]-th element. *)
Fixpoint remove_nth {A : Type} (k : nat) (l : list A) : list A :=
  match l, k with
  | [], _ => []
  | _ :: r, O => r
  | x :: r, S k' => x :: remove_nth k' r
  end.

(** [reader.onload] of the [k]-th read in flight: the payload is
    appended to whatever [images] holds at that moment. *)
Definition onload (k : nat) (st : State) : State :=
  match nth_error (readers st) k with
  | Some file =>
      setImages (images st ++ [base64_of (dataURL file)])
        (set_readers (remove_nth k (readers st)) st)
  | None => st
  end.

(** [prev.filter((_, i) => i !== index)]. *)
Definition removeImage (index : nat) (st : State) : State :=
  setImages (remove_nth index (images st)) st.

(** ** Submission *)

(** [handleSubmit] up to its [await]. *)
Definition handleSubmit (st0 : State) : State :=
  let st := setLoading true (setError [] st0) in
  let fd := formData st in
  if negb (truthy (trim (title fd))) then
    setLoading false (setError (lit "Title is required") st)
  else if negb (truthy (trim (description fd))) then
    setLoading false (setError (lit "Description is required") st)
  else if negb (truthy (base_price fd))
          || number_le (parseFloat (base_price fd)) zero then
    setLoading false (setError (lit "Please enter a valid price") st)
  else if negb (truthy (delivery_time_days fd))
          || number_le (parseInt (delivery_time_days fd)) zero then
    setLoading false
      (setError (lit "Please enter a valid delivery time") st)
  else
    set_posts (posts st ++ [serviceData fd (images st)]) st.

(** [error.response?.data?.detail || 'Failed to create service']. *)
Definition failure_message (detail : option str) : str :=
  match detail with
  | Some m => if truthy m then m else lit "Failed to create service"
  | None => lit "Failed to create service"
  end.

(** [handleSubmit] after its [await], when the [k]-th POST in flight
    is answered with the new listing's [id]. *)
Definition post_fulfilled (k : nat) (id : str) (st : State) : State :=
  match nth_error (posts st) k with
  | Some _ =>
      setLoading false
        (navigate (lit "/service/" ++ id)
           (set_posts (remove_nth k (posts st)) st))
  | None => st
  end.

(** ... and when it fails, with the [detail] of the backend's answer
    if there is one. *)
Definition post_rejected (k : nat) (detail : option str) (st : State)
    : State :=
  match nth_error (posts st) k with
  | Some _ =>
      setLoading false
        (setError (failure_message detail)
           (set_posts (remove_nth k (posts st)) st))
  | None => st
  end.

Inductive event : Type :=
| Change (name : input) (value : str)
| ImageUpload (files : list File)
| ReaderLoad (k : nat)
| RemoveImage (index : nat)
| Submit
| PostFulfilled (k : nat) (id : str)
| PostRejected (k : nat) (detail : option str).

Definition step (st : State) (ev : event) : State :=
  match ev with
  | Change name value => handleChange name value st
  | ImageUpload files => handleImageUpload files st
  | ReaderLoad k => onload k st
  | RemoveImage index => removeImage index st
  | Submit => handleSubmit st
  | PostFulfilled k id => post_fulfilled k id st
  | PostRejected k detail => post_rejected k detail st
  end.

Definition run (st : State) (evs : list event) : State :=
  fold_left step evs st.

(** ** The checks of [handleSubmit], one per field *)

Definition title_missing (fd : FormData) : bool :=
  negb (truthy (trim (title fd))).

Definition description_missing (fd : FormData) : bool :=
  negb (truthy (trim (description fd))).

Definition price_refused (fd : FormData) : bool :=
  negb (truthy (base_price fd))
  || number_le (parseFloat (base_price fd)) zero.

Definition delivery_refused (fd : FormData) : bool :=
  negb (truthy (delivery_time_days fd))
  || number_le (parseInt (delivery_time_days fd)) zero.

(** The messages of all the checks that fail on [fd], in the order of
    the checks. *)
Definition failing_checks (fd : FormData) : list str :=
  (if title_missing fd then [lit "Title is required"] else [])
  ++ (if description_missing fd
      then [lit "Description is required"] else [])
  ++ (if price_refused fd
      then [lit "Please enter a valid price"] else [])
  ++ (if delivery_refused fd
      then [lit "Please enter a valid delivery time"] else []).

(** What the form shows: the red box is rendered only when [error] is
    not empty. *)
Definition shown_errors (st : State) : list str :=
  if truthy (error st) then [error st] else [].

(** The reading of validation in which every failing check is
    reported at once. *)
Definition reports_every_error : Prop :=
  forall (st : State) (msg : str),
    In msg (failing_checks (formData st)) ->
    In msg (shown_errors (handleSubmit st)).

(** Order-preserving attachment, on a batch of two accepted files:
    even when the read of the second file completes before the read
    of the first, the payloads end up in the order of selection. *)
Definition selection_ordered : Prop :=
  forall (st : State) (f1 f2 : File),
    (size f1 <= max_size)%N -> (size f2 <= max_size)%N ->
    readers st = [] ->
    images (onload 0 (onload 1 (handleImageUpload [f1; f2] st)))
    = images st ++ [base64_of (dataURL f1); base64_of (dataURL f2)].

(** The file is within the size limit of [handleImageUpload]. *)
Definition accepted (f : File) : bool := N.leb (size f) max_size.

(** Every read in flight is for a file of [fs] within the limit, and
    every image listed is the payload of such a file. *)
Definition from_accepted (fs : list File) (st : State) : Prop :=
  (forall f, In f (readers st) ->
             In f fs /\ (size f <= max_size)%N)
  /\ (forall img, In img (images st) ->
                  exists f, In f fs /\ (size f <= max_size)%N
                            /\ img = base64_of (dataURL f)).

(** All the files passed to the upload handler during [evs]. *)
Definition uploaded (evs : list event) : list File :=
  flat_map (fun ev => match ev with
                      | ImageUpload files => files
                      | _ => []
                      end) evs.

End CreateService.

(* ================================================================== *)
(** * Concrete sessions, listings and drafts                          *)
(* ================================================================== *)

Module Scenario.

Import JS.

Definition ann : Auth.User :=
  {| Auth.id := lit "u-1"; Auth.full_name := lit "Ann";
     Auth.user_type := lit "creator" |}.

Definition bob : Auth.User :=
  {| Auth.id := lit "u-2"; Auth.full_name := lit "Bob";
     Auth.user_type := lit "buyer" |}.

(** A listing published by [ann]. *)
Definition logo_service : ServiceDetail.Service :=
  {| ServiceDetail.id := lit "s-1";
     ServiceDetail.creator_id := lit "u-1";
     ServiceDetail.title := lit "Logo Design" |}.

Definition signed_out : Auth.context :=
  {| Auth.user := None; Auth.loading := false |}.

Definition restoring : Auth.context :=
  {| Auth.user := None; Auth.loading := true |}.

Definition signed_in (u : Auth.User) : Auth.context :=
  {| Auth.user := Some u; Auth.loading := false |}.

(** The catalog after the user has typed "a" and then "ab" in the
    search box: the requests 1 and 2 (and the one sent on mounting)
    are in flight.  Listings are stood for by their titles. *)
Definition typed_a_then_ab : Marketplace.State str :=
  Marketplace.run (Marketplace.mounted str)
    [Marketplace.FilterChange str Marketplace.Search (lit "a");
     Marketplace.FilterChange str Marketplace.Search (lit "ab")].

Definition results_a : list str := [lit "Java course"; lit "Tab design"].
Definition results_ab : list str := [lit "Tab design"].

Definition draft (t d p days : string) : CreateService.FormData :=
  {| CreateService.title := lit t;
     CreateService.description := lit d;
     CreateService.category := lit "graphic-design";
     CreateService.tags := lit "logo, branding";
     CreateService.base_price := lit p;
     CreateService.delivery_time_days := lit days;
     CreateService.revisions_included := lit "1" |}.

Definition editing (fd : CreateService.FormData) : CreateService.State :=
  CreateService.setFormData fd CreateService.initial.

(** The draft of the round-trip example. *)
Definition logo_draft : CreateService.FormData :=
  draft "Logo Design" "I design logos" "25.00" "3".

(** Title and description both left empty. *)
Definition blank_draft : CreateService.FormData :=
  draft "" "" "25.00" "3".

(** Drafts whose price, or delivery time, is not numeric. *)
Definition abc_price_draft : CreateService.FormData :=
  draft "Logo Design" "I design logos" "abc" "3".

Definition abc_delivery_draft : CreateService.FormData :=
  draft "Logo Design" "I design logos" "25.00" "abc".

(** A delivery time that a number input accepts as text and that
    does not start with a digit. *)
Definition half_day_draft : CreateService.FormData :=
  draft "Logo Design" "I design logos" "25.00" ".5".

Definition file (n : string) (bytes : N) (payload : string)
    : CreateService.File :=
  {| CreateService.name := lit n;
     CreateService.size := bytes;
     CreateService.dataURL := lit "data:image/png;base64," ++ lit payload |}.

Definition small_1 : CreateService.File := file "one.png" 1000 "AAAA".
Definition small_2 : CreateService.File := file "two.png" 2000 "BBBB".
Definition exactly_5MiB : CreateService.File :=
  file "limit.png" 5242880 "CCCC".
Definition over_5MiB : CreateService.File :=
  file "big.png" 5242881 "DDDD".

End Scenario.

(* ================================================================== *)
(** * More of the runtime: arrays and case                            *)
(* ================================================================== *)

Module Runtime.

Import JS.

(** [Array.prototype.join] on an array of strings. *)
Fixpoint join (sep : str) (l : list str) : str :=
  match l with
  | [] => []
  | [x] => x
  | x :: r => x ++ sep ++ join sep r
  end.

(** [arr.filter((_, i) => i !== index)], the callback being given the
    position [i] of each element, counted from [from]. *)
Fixpoint filter_other_index {A : Type} (from index : nat) (l : list A)
    : list A :=
  match l with
  | [] => []
  | x :: r =>
      if Nat.eqb from index then filter_other_index (S from) index r
      else x :: filter_other_index (S from) index r
  end.

(** [c.toUpperCase()] for one ASCII code unit; [None] outside ASCII,
    where the Unicode case mapping decides. *)
Definition upper_ascii (c : N) : option N :=
  if N.ltb c 128
  then Some (if N.leb 97 c && N.leb c 122 then (c - 32)%N else c)
  else None.

(** [word.charAt(0).toUpperCase() + word.slice(1)]. *)
Definition capitalize (word : str) : option str :=
  match word with
  | [] => Some []
  | c :: r =>
      match upper_ascii c with
      | Some C => Some (C :: r)
      | None => None
      end
  end.

Fixpoint all_some {A : Type} (l : list (option A)) : option (list A) :=
  match l with
  | [] => Some []
  | Some x :: r =>
      match all_some r with
      | Some xs => Some (x :: xs)
      | None => None
      end
  | None :: _ => None
  end.

Definition hyphen : N := 45.

(** The label of a category, as the category filter and the detail
    page compute it:
    [category.split('-').map(capitalize).join(' ')]. *)
Definition category_label (category : str) : option str :=
  match all_some (map capitalize (split hyphen category)) with
  | Some words => Some (join (lit " ") words)
  | None => None
  end.

(** Every code unit of [s] is white space. *)
Definition blank (s : str) : bool := forallb is_white_space s.

(** The Number value of a natural number below [2^53]. *)
Definition integer (n : N) : number := normal false (Z.of_N n) 0.

(** The code unit of a decimal digit. *)
Definition digit_char (d : N) : N := (48 + d)%N.

(** The string of the decimal digits [ds]. *)
Definition numeral (ds : list N) : str := map digit_char ds.

(** A Number that does not compare [<= 0]: NaN, plus infinity, or a
    finite value above zero. *)
Definition nan_or_above_zero (x : number) : Prop :=
  x = NaN \/ x = Infinity false
  \/ exists m e, x = Finite false m e /\ m <> 0%N.

End Runtime.

(* ================================================================== *)
(** * [components/Navbar.js]                                          *)
(* ================================================================== *)

Module Navbar.

Import JS.

(** An entry of the navigation: a [Link] with its target and text, or
    the button wired to [handleLogout]. *)
Inductive item : Type :=
| Link (to : string) (text : string)
| LogoutButton.

(** The block rendered for wide screens. *)
Definition desktop_items (user : option Auth.User) : list item :=
  Link "/marketplace" "Marketplace"
  :: match user with
     | Some u =>
         [Link "/dashboard" "Dashboard"]
         ++ (if str_eqb (Auth.user_type u) (lit "creator")
             then [Link "/create-service" "Create Service"] else [])
         ++ [Link "/profile" "Profile"; LogoutButton]
     | None => [Link "/login" "Login"; Link "/register" "Sign Up"]
     end.

(** The block rendered under the menu button, [isMenuOpen && (...)]. *)
Definition mobile_items (isMenuOpen : bool) (user : option Auth.User)
    : list item :=
  if isMenuOpen then
    Link "/marketplace" "Marketplace"
    :: match user with
       | Some u =>
           [Link "/dashboard" "Dashboard"]
           ++ (if str_eqb (Auth.user_type u) (lit "creator")
               then [Link "/create-service" "Create Service"] else [])
           ++ [Link "/profile" "Profile"; LogoutButton]
       | None => [Link "/login" "Login"; Link "/register" "Sign Up"]
       end
  else [].

End Navbar.

(* ================================================================== *)
(** * [pages/CreateService.js]: the page around the draft             *)
(* ================================================================== *)

Module DraftPage.

Import JS CreateService.

(** The options of the category select: value and label. *)
Definition categories : list (str * str) :=
  [(lit "graphic-design", lit "Graphic Design");
   (lit "web-development", lit "Web Development");
   (lit "content-writing", lit "Content Writing");
   (lit "digital-marketing", lit "Digital Marketing");
   (lit "video-editing", lit "Video Editing");
   (lit "music-production", lit "Music Production");
   (lit "photography", lit "Photography");
   (lit "consulting", lit "Consulting");
   (lit "other", lit "Other")].

(** What the component returns: the "Access Denied" box when
    [user?.user_type !== 'creator'], the form otherwise. *)
Inductive page : Type := AccessDenied | Form.

Definition render (user : option Auth.User) : page :=
  match user with
  | Some u =>
      if str_eqb (Auth.user_type u) (lit "creator") then Form
      else AccessDenied
  | None => AccessDenied
  end.

(** The submit button carries [disabled={loading}]. *)
Definition submit_disabled (st : State) : bool := loading st.

(** Whether the page lets [ev] happen in [st]: a submission needs the
    submit button enabled, a read or a POST can only complete while it
    is outstanding. *)
Definition enabled (st : State) (ev : event) : bool :=
  match ev with
  | Submit => negb (submit_disabled st)
  | ReaderLoad k => Nat.ltb k (List.length (readers st))
  | PostFulfilled k _ | PostRejected k _ =>
      Nat.ltb k (List.length (posts st))
  | Change _ _ | ImageUpload _ | RemoveImage _ => true
  end.

(** A sequence of events each of which is enabled when it happens. *)
Fixpoint possible (st : State) (evs : list event) : bool :=
  match evs with
  | [] => true
  | ev :: evs' => enabled st ev && possible (step st ev) evs'
  end.

(** Either a POST is outstanding and [loading] is set, or none is and
    [loading] is clear. *)
Definition settled_or_single (st : State) : Prop :=
  (loading st = true /\ List.length (posts st) = 1)
  \/ (loading st = false /\ posts st = []).

End DraftPage.

(* ================================================================== *)
(** * [pages/ServiceDetail.js]: the page and the order action         *)
(* ================================================================== *)

Module DetailPage.

Import JS ServiceDetail.

(** The five [useState] cells, the GETs of [fetchService] that are
    outstanding (by listing id), the route given to [navigate] and the
    messages passed to [alert]. *)
Record State : Type := {
  service : option Service;
  loading : bool;
  error : str;
  orderLoading : bool;
  orderRequirements : str;
  fetches : list str;
  navigated : option str;
  alerts : list str
}.

Definition initial : State :=
  {| service := None; loading := true; error := [];
     orderLoading := false; orderRequirements := []; fetches := [];
     navigated := None; alerts := [] |}.

Definition setService (s : option Service) (st : State) : State :=
  {| service := s; loading := loading st; error := error st;
     orderLoading := orderLoading st;
     orderRequirements := orderRequirements st; fetches := fetches st;
     navigated := navigated st; alerts := alerts st |}.

Definition setLoading (b : bool) (st : State) : State :=
  {| service := service st; loading := b; error := error st;
     orderLoading := orderLoading st;
     orderRequirements := orderRequirements st; fetches := fetches st;
     navigated := navigated st; alerts := alerts st |}.

Definition setError (msg : str) (st : State) : State :=
  {| service := service st; loading := loading st; error := msg;
     orderLoading := orderLoading st;
     orderRequirements := orderRequirements st; fetches := fetches st;
     navigated := navigated st; alerts := alerts st |}.

Definition setOrderLoading (b : bool) (st : State) : State :=
  {| service := service st; loading := loading st; error := error st;
     orderLoading := b;
     orderRequirements := orderRequirements st; fetches := fetches st;
     navigated := navigated st; alerts := alerts st |}.

Definition setOrderRequirements (text : str) (st : State) : State :=
  {| service := service st; loading := loading st; error := error st;
     orderLoading := orderLoading st;
     orderRequirements := text; fetches := fetches st;
     navigated := navigated st; alerts := alerts st |}.

Definition set_fetches (fs : list str) (st : State) : State :=
  {| service := service st; loading := loading st; error := error st;
     orderLoading := orderLoading st;
     orderRequirements := orderRequirements st; fetches := fs;
     navigated := navigated st; alerts := alerts st |}.

Definition navigate (to : str) (st : State) : State :=
  {| service := service st; loading := loading st; error := error st;
     orderLoading := orderLoading st;
     orderRequirements := orderRequirements st; fetches := fetches st;
     navigated := Some to; alerts := alerts st |}.

Definition alert (msg : str) (st : State) : State :=
  {| service := service st; loading := loading st; error := error st;
     orderLoading := orderLoading st;
     orderRequirements := orderRequirements st; fetches := fetches st;
     navigated := navigated st; alerts := alerts st ++ [msg] |}.

(** [fetchService] up to its [await]: the GET for the listing [id] of
    the route is sent; no state is written. *)
Definition fetchService (id : str) (st : State) : State :=
  set_fetches (fetches st ++ [id]) st.

(** The page after mounting on the route of listing [id]. *)
Definition mounted (id : str) : State := fetchService id initial.

(** [fetchService] after its [await], when the [k]-th GET outstanding
    is answered with a listing ... *)
Definition fetch_fulfilled (k : nat) (data : Service) (st : State)
    : State :=
  match nth_error (fetches st) k with
  | Some _ =>
      setLoading false
        (setService (Some data)
           (set_fetches (CreateService.remove_nth k (fetches st)) st))
  | None => st
  end.

(** ... and when it fails. *)
Definition fetch_rejected (k : nat) (st : State) : State :=
  match nth_error (fetches st) k with
  | Some _ =>
      setLoading false
        (setError (lit "Service not found")
           (set_fetches (CreateService.remove_nth k (fetches st)) st))
  | None => st
  end.

(** [handleOrder].  It has no [await]: it runs to its end in one turn.
    Reading [service.id] of a missing listing throws inside the [try]
    and is caught. *)
Definition handleOrder (user : option Auth.User) (st : State) : State :=
  match user with
  | None => navigate (lit "/login") st
  | Some u =>
      if negb (str_eqb (Auth.user_type u) (lit "buyer")) then
        setError (lit "Only buyers can place orders") st
      else if negb (truthy (trim (orderRequirements st))) then
        setError (lit "Please provide order requirements") st
      else
        let st1 := setError [] (setOrderLoading true st) in
        match service st1 with
        | Some _ =>
            setOrderLoading false
              (alert (lit "Order functionality will be available soon! Your request has been noted.")
                 st1)
        | None =>
            setOrderLoading false
              (setError (lit "Failed to place order") st1)
        end
  end.

(** What the component returns.  The detail view reads the fields of
    [service], which throws when [service] is [null]. *)
Inductive view : Type :=
| Spinner
| NotFound
| Detail (s : Service) (side : sidebar)
| TypeError.

Definition render (user : option Auth.User) (st : State) : view :=
  if loading st then Spinner
  else if truthy (error st)
          && match service st with None => true | Some _ => false end
  then NotFound
  else match service st with
       | Some s => Detail s (render_sidebar user s)
       | None => TypeError
       end.

(** [disabled={orderLoading || !orderRequirements.trim()}]. *)
Definition order_disabled (st : State) : bool :=
  orderLoading st || negb (truthy (trim (orderRequirements st))).

Inductive event : Type :=
| RouteChanged (id : str)
| FetchFulfilled (k : nat) (data : Service)
| FetchRejected (k : nat)
| RequirementsTyped (text : str)
| OrderClicked
| SignInClicked
| BackClicked.

Definition step (user : option Auth.User) (st : State) (ev : event)
    : State :=
  match ev with
  | RouteChanged id => fetchService id st
  | FetchFulfilled k data => fetch_fulfilled k data st
  | FetchRejected k => fetch_rejected k st
  | RequirementsTyped text => setOrderRequirements text st
  | OrderClicked => handleOrder user st
  | SignInClicked => navigate (lit "/login") st
  | BackClicked => navigate (lit "/marketplace") st
  end.

Definition shows_order_form (user : option Auth.User) (st : State)
    : bool :=
  match render user st with
  | Detail _ OrderForm => true
  | _ => false
  end.

(** Whether the page lets [ev] happen in [st]: a control can only be
    used while it is rendered and not disabled, a GET can only
    complete while it is outstanding. *)
Definition enabled (user : option Auth.User) (st : State) (ev : event)
    : bool :=
  match ev with
  | RouteChanged _ => true
  | FetchFulfilled k _ | FetchRejected k =>
      Nat.ltb k (List.length (fetches st))
  | RequirementsTyped _ => shows_order_form user st
  | OrderClicked => shows_order_form user st && negb (order_disabled st)
  | SignInClicked =>
      match render user st with
      | Detail _ SignIn => true
      | _ => false
      end
  | BackClicked =>
      match render user st with
      | NotFound => true
      | _ => false
      end
  end.

Fixpoint run (user : option Auth.User) (st : State) (evs : list event)
    : State :=
  match evs with
  | [] => st
  | ev :: evs' => run user (step user st ev) evs'
  end.

Fixpoint possible (user : option Auth.User) (st : State)
    (evs : list event) : bool :=
  match evs with
  | [] => true
  | ev :: evs' =>
      enabled user st ev && possible user (step user st ev) evs'
  end.

(** While the page is not loading, a listing is held or an error is
    set. *)
Definition has_listing_or_error (st : State) : Prop :=
  loading st = true \/ service st <> None \/ error st <> [].

End DetailPage.

(* ================================================================== *)
(** * The [Marketplace] component: what is rendered                   *)
(* ================================================================== *)

Module Catalog.

Import JS Marketplace.

(** The categories offered by the filter. *)
Definition categories : list str :=
  [lit "graphic-design"; lit "web-development"; lit "content-writing";
   lit "digital-marketing"; lit "video-editing"; lit "music-production";
   lit "photography"; lit "consulting"; lit "other"].

(** [clearFilters]. *)
Definition clearFilters {Item : Type} (st : State Item) : State Item :=
  setFilters no_filters st.

(** The services grid: the spinner, the cards, or "No services
    found". *)
Inductive view (Item : Type) : Type :=
| Spinner
| Grid (cards : list Item)
| NoServices.

Definition render {Item : Type} (st : State Item) : view Item :=
  if loading st then Spinner Item
  else if Nat.ltb 0 (List.length (services st)) then Grid (services st)
  else NoServices Item.

(** A request can only settle while it is in flight. *)
Definition enabled {Item : Type} (st : State Item) (ev : event Item)
    : bool :=
  match ev with
  | Resolved n _ | Rejected _ n => is_inflight n st
  | FilterChange _ _ _ | ClearFilters _ => true
  end.

Fixpoint possible {Item : Type} (st : State Item)
    (evs : list (event Item)) : bool :=
  match evs with
  | [] => true
  | ev :: evs' => enabled st ev && possible (step st ev) evs'
  end.

(** The data of the answers received during [evs]. *)
Definition answers {Item : Type} (evs : list (event Item))
    : list (list Item) :=
  flat_map (fun ev => match ev with
                      | Resolved _ data => [data]
                      | _ => []
                      end) evs.

(** The filter changes made during [evs]. *)
Definition changes {Item : Type} (evs : list (event Item)) : nat :=
  List.length (filter (fun ev => match ev with
                                 | FilterChange _ _ _ | ClearFilters _ =>
                                     true
                                 | _ => false
                                 end) evs).

(** The tags of a [ServiceCard]: nothing when [service.tags] is
    missing or empty, else the first three tags and, when there are
    more, how many more. *)
Definition card_tags (tags : option (list str))
    : option (list str * option nat) :=
  match tags with
  | Some (t :: r) =>
      let l := t :: r in
      Some (firstn 3 l,
            if Nat.ltb 3 (List.length l)
            then Some (List.length l - 3) else None)
  | _ => None
  end.

(** The requests in flight carry distinct numbers, all below the
    number the next request will get. *)
Definition well_numbered {Item : Type} (st : State Item) : Prop :=
  Forall (fun r => seq r < issued st) (inflight st)
  /\ NoDup (map seq (inflight st)).

End Catalog.

(* ================================================================== *)
(** * The [Dashboard] component                                       *)
(* ================================================================== *)

Module Dashboard.

Import JS.

(** The two fields read from the answer of [/creators/profile]. *)
Record Profile : Type := {
  total_earnings : number;
  profile_rating : number
}.

Record Stats : Type := {
  totalServices : nat;
  totalEarnings : number;
  activeOrders : nat;
  rating : number
}.

(** Where a call of [fetchData] is suspended: at the GET of the
    profile, or at the GET of the services of the user it was called
    for. *)
Inductive pending : Type :=
| ProfileGet (u : Auth.User)
| ServicesGet (u : Auth.User).

Section Component.

(** The elements of the services answer. *)
Variable Item : Type.

Record State : Type := {
  profile : option Profile;
  services : list Item;
  loading : bool;
  stats : Stats;
  awaiting : list pending
}.

Definition initial : State :=
  {| profile := None; services := []; loading := true;
     stats := {| totalServices := 0; totalEarnings := zero;
                 activeOrders := 0; rating := zero |};
     awaiting := [] |}.

Definition setLoading (b : bool) (st : State) : State :=
  {| profile := profile st; services := services st; loading := b;
     stats := stats st; awaiting := awaiting st |}.

Definition set_awaiting (l : list pending) (st : State) : State :=
  {| profile := profile st; services := services st;
     loading := loading st; stats := stats st; awaiting := l |}.

(** [l] with its [k]-th element replaced by [x]. *)
Fixpoint replace_nth {A : Type} (k : nat) (x : A) (l : list A) : list A :=
  match l, k with
  | [], _ => []
  | _ :: r, O => x :: r
  | y :: r, S k' => y :: replace_nth k' x r
  end.

(** [fetchData] up to its first [await]: a creator's profile is
    requested; for anyone else only the [finally] block runs. *)
Definition fetchData (user : option Auth.User) (st : State) : State :=
  match user with
  | Some u =>
      if str_eqb (Auth.user_type u) (lit "creator")
      then set_awaiting (awaiting st ++ [ProfileGet u]) st
      else setLoading false st
  | None => setLoading false st
  end.

(** The profile arrives: it is stored, earnings and rating go to the
    stats, and the services of the same user are requested. *)
Definition profile_fulfilled (k : nat) (data : Profile) (st : State)
    : State :=
  match nth_error (awaiting st) k with
  | Some (ProfileGet u) =>
      {| profile := Some data;
         services := services st;
         loading := loading st;
         stats := {| totalServices := totalServices (stats st);
                     totalEarnings := total_earnings data;
                     activeOrders := activeOrders (stats st);
                     rating := profile_rating data |};
         awaiting := replace_nth k (ServicesGet u) (awaiting st) |}
  | _ => st
  end.

(** The profile request fails: a 404 is passed over in silence, any
    other failure is logged; either way the services are requested. *)
Definition profile_rejected (k : nat) (status : option nat) (st : State)
    : State :=
  match nth_error (awaiting st) k with
  | Some (ProfileGet u) =>
      set_awaiting (replace_nth k (ServicesGet u) (awaiting st)) st
  | _ => st
  end.

(** The services arrive: they are stored and counted, then the
    [finally] block runs. *)
Definition services_fulfilled (k : nat) (data : list Item) (st : State)
    : State :=
  match nth_error (awaiting st) k with
  | Some (ServicesGet _) =>
      {| profile := profile st;
         services := data;
         loading := false;
         stats := {| totalServices := List.length data;
                     totalEarnings := totalEarnings (stats st);
                     activeOrders := activeOrders (stats st);
                     rating := rating (stats st) |};
         awaiting := CreateService.remove_nth k (awaiting st) |}
  | _ => st
  end.

Definition services_rejected (k : nat) (st : State) : State :=
  match nth_error (awaiting st) k with
  | Some (ServicesGet _) =>
      setLoading false
        (set_awaiting (CreateService.remove_nth k (awaiting st)) st)
  | _ => st
  end.

Inductive event : Type :=
| UserChanged (user : option Auth.User)
| ProfileFulfilled (k : nat) (data : Profile)
| ProfileRejected (k : nat) (status : option nat)
| ServicesFulfilled (k : nat) (data : list Item)
| ServicesRejected (k : nat).

(** One turn of the event loop; a change of [user] re-runs the effect,
    which calls [fetchData]. *)
Definition step (st : State) (ev : event) : State :=
  match ev with
  | UserChanged user => fetchData user st
  | ProfileFulfilled k data => profile_fulfilled k data st
  | ProfileRejected k status => profile_rejected k status st
  | ServicesFulfilled k data => services_fulfilled k data st
  | ServicesRejected k => services_rejected k st
  end.

Definition run (st : State) (evs : list event) : State :=
  fold_left step evs st.

(** The cards of "Your Services": [services.slice(0, 6)]. *)
Definition recent (st : State) : list Item := firstn 6 (services st).

End Component.

(** The counter of services is the number of services held, and the
    counter of active orders is zero. *)
Definition counted {Item : Type} (st : State Item) : Prop :=
  totalServices (stats st) = List.length (services st)
  /\ activeOrders (stats st) = 0.

End Dashboard.

(* ================================================================== *)
(** * Facts about the JavaScript values                               *)
(* ================================================================== *)

Module JSFacts.

Import JS.

Lemma str_eqb_refl (a : str) : str_eqb a a = true.
Proof.
  induction a as [|x a IH]; simpl; [reflexivity|].
  now rewrite N.eqb_refl, IH.
Qed.

Lemma str_eqb_eq (a b : str) : str_eqb a b = true <-> a = b.
Proof.
  split.
  - revert b; induction a as [|x a IH]; intros [|y b] H; simpl in H;
      try discriminate; [reflexivity|].
    apply andb_true_iff in H as [Hxy Hab].
    apply N.eqb_eq in Hxy. apply IH in Hab. congruence.
  - intros ->. apply str_eqb_refl.
Qed.

Lemma str_eqb_neq (a b : str) : str_eqb a b = false <-> a <> b.
Proof.
  split.
  - intros H E. apply str_eqb_eq in E. congruence.
  - intros H. destruct (str_eqb a b) eqn:E; [|reflexivity].
    apply str_eqb_eq in E. contradiction.
Qed.

Lemma truthy_nonempty (s : str) : truthy s = true <-> s <> [].
Proof. destruct s; simpl; split; congruence. Qed.

End JSFacts.

(* ================================================================== *)
(** * The route guard                                                 *)
(* ================================================================== *)

Module GuardFacts.

Import JS Guard.

(** C2.  The guard follows the decision table.  While [loading] is
    true it renders the pending indicator, whatever the rest of the
    session says.  Once [loading] is false: with no identity it
    redirects to the login view; with an identity and a required role
    (a non-empty [requiredUserType]) different from the identity's
    role it redirects to the dashboard; with an identity and either no
    required role or a required role equal to the identity's, it
    renders the guarded view and the session still holds that
    identity. *)
Theorem guard_follows_table :
  forall (required : option str) (auth : Auth.context),
    (Auth.loading auth = true ->
     ProtectedRoute required auth = Spinner)
    /\ (Auth.loading auth = false -> Auth.user auth = None ->
        ProtectedRoute required auth = Navigate (lit "/login"))
    /\ (forall (u : Auth.User) (r : str),
           Auth.loading auth = false -> Auth.user auth = Some u ->
           required = Some r -> r <> [] -> Auth.user_type u <> r ->
           ProtectedRoute required auth = Navigate (lit "/dashboard"))
    /\ (forall u : Auth.User,
           Auth.loading auth = false -> Auth.user auth = Some u ->
           truthy_opt required = false
           \/ required = Some (Auth.user_type u) ->
           ProtectedRoute required auth = Children
           /\ Auth.user auth = Some u).
Proof.
  intros required [user loading]; unfold ProtectedRoute; simpl.
  repeat split.
  - now intros ->.
  - now intros -> ->.
  - intros u r -> -> -> Hr Hneq; simpl.
    apply JSFacts.truthy_nonempty in Hr. rewrite Hr; simpl.
    apply JSFacts.str_eqb_neq in Hneq. now rewrite Hneq.
  - subst; simpl. destruct H1 as [Hnone | ->].
    + now rewrite Hnone.
    + simpl. rewrite JSFacts.str_eqb_refl; simpl.
      now rewrite andb_false_r.
  - assumption.
Qed.

Lemma guard_follows_table_witness :
  ProtectedRoute (Some (lit "creator")) (Scenario.signed_in Scenario.bob)
  = Navigate (lit "/dashboard").
Proof.
  apply (proj1 (proj2 (proj2
           (guard_follows_table (Some (lit "creator"))
              (Scenario.signed_in Scenario.bob))))
           Scenario.bob (lit "creator"));
    [reflexivity | reflexivity | reflexivity | discriminate
    | discriminate].
Defined.

(** C10.  Whatever role the route names, and also when it names none
    ([requiredUserType] left at its default [null]), the guard
    redirects to the login view when [loading] is false and no
    identity is set; and the guarded view is rendered only when an
    identity is set. *)
Theorem guard_requires_identity :
  forall (required : option str) (auth : Auth.context),
    (Auth.loading auth = false -> Auth.user auth = None ->
     ProtectedRoute required auth = Navigate (lit "/login"))
    /\ (ProtectedRoute required auth = Children ->
        Auth.loading auth = false
        /\ exists u, Auth.user auth = Some u).
Proof.
  intros required [user loading]; unfold ProtectedRoute; simpl; split.
  - now intros -> ->.
  - destruct loading; [discriminate|].
    destruct user as [u|]; [|discriminate].
    intros _. split; [reflexivity | now exists u].
Qed.

Lemma guard_requires_identity_witness :
  ProtectedRoute None Scenario.signed_out = Navigate (lit "/login").
Proof.
  apply (proj1 (guard_requires_identity None Scenario.signed_out));
    reflexivity.
Defined.

End GuardFacts.

(* ================================================================== *)
(** * The order gate                                                  *)
(* ================================================================== *)

Module ServiceDetailFacts.

Import JS ServiceDetail.

(** C1, counterexample.  [ann] is a creator and the listing is hers:
    the side bar says "This is your service", not that only buyers
    can order. *)
Lemma creator_on_own_listing :
  Auth.user_type Scenario.ann = lit "creator"
  /\ Auth.id Scenario.ann = creator_id Scenario.logo_service
  /\ render_sidebar (Some Scenario.ann) Scenario.logo_service = OwnService
  /\ ~ creator_always_refused.
Proof.
  repeat split; try reflexivity.
  intros H.
  specialize (H Scenario.ann Scenario.logo_service eq_refl).
  discriminate H.
Qed.

(** C1, as the code has it.  A signed-in creator who does not own the
    listing is told that only buyers can order; a creator who owns it
    is shown "This is your service"; in neither case is the order
    form shown. *)
Theorem creator_never_gets_order_form :
  forall (u : Auth.User) (service : Service),
    Auth.user_type u = lit "creator" ->
    (Auth.id u <> creator_id service ->
     render_sidebar (Some u) service = OnlyBuyers)
    /\ (Auth.id u = creator_id service ->
        render_sidebar (Some u) service = OwnService)
    /\ render_sidebar (Some u) service <> OrderForm.
Proof.
  intros u service Hc; unfold render_sidebar; rewrite Hc.
  change (str_eqb (lit "creator") (lit "buyer")) with false; simpl.
  destruct (str_eqb (Auth.id u) (creator_id service)) eqn:E.
  - apply JSFacts.str_eqb_eq in E.
    repeat split; [contradiction | discriminate].
  - apply JSFacts.str_eqb_neq in E.
    repeat split; [contradiction | discriminate].
Qed.

Lemma creator_never_gets_order_form_witness :
  render_sidebar (Some Scenario.ann) Scenario.logo_service <> OrderForm.
Proof.
  apply (creator_never_gets_order_form Scenario.ann Scenario.logo_service).
  reflexivity.
Defined.

End ServiceDetailFacts.

(* ================================================================== *)
(** * The catalog query                                               *)
(* ================================================================== *)

Module MarketplaceFacts.

Import JS Marketplace.

Section Settling.

Variable Item : Type.
Implicit Types (st : State Item) (r : Request) (d : list Item).

Lemma is_inflight_In st r :
  In r (inflight st) -> is_inflight (seq r) st = true.
Proof.
  intros H. unfold is_inflight. apply existsb_exists.
  exists r. split; [assumption | apply Nat.eqb_refl].
Qed.

Lemma resolved_inflight st r d :
  In r (inflight st) ->
  resolved (seq r) d st
  = {| services := d; loading := false; filters := filters st;
       issued := issued st; inflight := settle (seq r) st |}.
Proof.
  intros H. unfold resolved. now rewrite (is_inflight_In st r H).
Qed.

(** Settling one request leaves the requests with other numbers in
    flight. *)
Lemma still_inflight st r r' d :
  In r (inflight st) -> In r' (inflight st) -> seq r' <> seq r ->
  In r' (inflight (resolved (seq r) d st)).
Proof.
  intros Hr Hr' Hne. rewrite (resolved_inflight st r d Hr); simpl.
  unfold settle. apply filter_In. split; [assumption|].
  apply negb_true_iff. now apply Nat.eqb_neq.
Qed.

Lemma fetchServices_appends st :
  inflight (fetchServices st)
  = inflight st ++ [{| seq := issued st;
                       params := query_params (filters st) |}].
Proof. reflexivity. Qed.

End Settling.

(** C3, counterexample.  After "a" and then "ab" have been typed, the
    requests 1 (for "a") and 2 (for "ab") are in flight.  The answer
    to request 2 arrives first and is displayed; when the answer to
    request 1 arrives afterwards it replaces it, so the listings shown
    for the search "ab" are those found for "a". *)
Lemma stale_response_overwrites :
  map seq (inflight Scenario.typed_a_then_ab) = [0; 1; 2]
  /\ search (filters Scenario.typed_a_then_ab) = lit "ab"
  /\ services (resolved 2 Scenario.results_ab Scenario.typed_a_then_ab)
     = Scenario.results_ab
  /\ services (resolved 1 Scenario.results_a
                 (resolved 2 Scenario.results_ab
                    Scenario.typed_a_then_ab))
     = Scenario.results_a
  /\ Scenario.results_a <> Scenario.results_ab
  /\ ~ last_request_wins str.
Proof.
  repeat split; try reflexivity; try discriminate.
  intros H.
  specialize (H Scenario.typed_a_then_ab
                {| seq := 1; params := [(lit "search", lit "a")] |}
                {| seq := 2; params := [(lit "search", lit "ab")] |}
                Scenario.results_a Scenario.results_ab).
  simpl in H.
  assert (E : Scenario.results_a = Scenario.results_ab).
  { apply H; [right; left; reflexivity
             | right; right; left; reflexivity | lia]. }
  discriminate E.
Qed.

(** C3, as the code has it.  Every answer is applied to the displayed
    listings when it arrives.  With two requests in flight, the one
    that resolves last decides what is displayed: the older one's
    data when the older one resolves after the newer one, the newer
    one's data when they resolve in the order they were issued. *)
Theorem last_response_wins :
  forall (Item : Type) (st : State Item) (older newer : Request)
         (d_old d_new : list Item),
    In older (inflight st) -> In newer (inflight st) ->
    seq older < seq newer ->
    services (resolved (seq newer) d_new st) = d_new
    /\ services (resolved (seq older) d_old
                   (resolved (seq newer) d_new st)) = d_old
    /\ services (resolved (seq newer) d_new
                   (resolved (seq older) d_old st)) = d_new.
Proof.
  intros Item st older newer d_old d_new Ho Hn Hlt.
  assert (Ho' : In older (inflight (resolved (seq newer) d_new st)))
    by (apply still_inflight; [assumption | assumption | lia]).
  assert (Hn' : In newer (inflight (resolved (seq older) d_old st)))
    by (apply still_inflight; [assumption | assumption | lia]).
  repeat split.
  - now rewrite (resolved_inflight st newer d_new Hn).
  - now rewrite (resolved_inflight _ older d_old Ho').
  - now rewrite (resolved_inflight _ newer d_new Hn').
Qed.

Lemma last_response_wins_witness :
  services (resolved 1 Scenario.results_a
              (resolved 2 Scenario.results_ab Scenario.typed_a_then_ab))
  = Scenario.results_a.
Proof.
  apply (last_response_wins Scenario.typed_a_then_ab
           {| seq := 1; params := [(lit "search", lit "a")] |}
           {| seq := 2; params := [(lit "search", lit "ab")] |}
           Scenario.results_a Scenario.results_ab).
  - right; left; reflexivity.
  - right; right; left; reflexivity.
  - simpl; lia.
Defined.

End MarketplaceFacts.

(* ================================================================== *)
(** * The listing draft                                               *)
(* ================================================================== *)

Module CreateServiceFacts.

Import JS CreateService.

(** ** Attaching a batch *)

Lemma upload_one_readers st f :
  readers (upload_one st f)
  = readers st ++ (if accepted f then [f] else []).
Proof.
  unfold upload_one. rewrite N.ltb_antisym.
  unfold accepted.
  destruct (N.leb (size f) max_size); simpl;
    [reflexivity | now rewrite app_nil_r].
Qed.

Lemma upload_one_images st f : images (upload_one st f) = images st.
Proof. unfold upload_one. now destruct (N.ltb max_size (size f)). Qed.

Lemma upload_one_formData st f :
  formData (upload_one st f) = formData st.
Proof. unfold upload_one. now destruct (N.ltb max_size (size f)). Qed.

Lemma upload_one_error st f :
  error (upload_one st f)
  = if accepted f then error st
    else lit "Image files must be less than 5MB".
Proof.
  unfold upload_one, accepted. rewrite N.ltb_antisym.
  now destruct (N.leb (size f) max_size).
Qed.

Lemma upload_readers files : forall st,
  readers (handleImageUpload files st)
  = readers st ++ filter accepted files.
Proof.
  unfold handleImageUpload.
  induction files as [|f files IH]; intros st; simpl.
  - now rewrite app_nil_r.
  - rewrite IH, upload_one_readers.
    destruct (accepted f); simpl.
    + now rewrite <- app_assoc.
    + now rewrite app_nil_r.
Qed.

Lemma upload_images files : forall st,
  images (handleImageUpload files st) = images st.
Proof.
  unfold handleImageUpload.
  induction files as [|f files IH]; intros st; simpl;
    [reflexivity | now rewrite IH, upload_one_images].
Qed.

Lemma upload_formData files : forall st,
  formData (handleImageUpload files st) = formData st.
Proof.
  unfold handleImageUpload.
  induction files as [|f files IH]; intros st; simpl;
    [reflexivity | now rewrite IH, upload_one_formData].
Qed.

(** One oversized file anywhere in the batch leaves the size error
    behind. *)
Lemma upload_error files : forall st,
  error (handleImageUpload files st)
  = if forallb accepted files then error st
    else lit "Image files must be less than 5MB".
Proof.
  unfold handleImageUpload.
  induction files as [|f files IH]; intros st; simpl;
    [reflexivity|].
  rewrite IH, upload_one_error.
  destruct (accepted f); simpl; [reflexivity|].
  now destruct (forallb accepted files).
Qed.

(** ** One read completing *)

Lemma onload_appends st k f :
  nth_error (readers st) k = Some f ->
  images (onload k st) = images st ++ [base64_of (dataURL f)]
  /\ readers (onload k st) = remove_nth k (readers st)
  /\ formData (onload k st) = formData st.
Proof. intros H. unfold onload. rewrite H. now repeat split. Qed.

Lemma remove_nth_In {A : Type} (k : nat) (l : list A) (x : A) :
  In x (remove_nth k l) -> In x l.
Proof.
  revert k; induction l as [|y l IH]; intros k H; [now destruct k|].
  destruct k as [|k]; simpl in H.
  - now right.
  - destruct H as [-> | H]; [now left | right; eauto].
Qed.

(** ** Where the listed images come from *)

Lemma from_accepted_mono fs fs' st :
  incl fs fs' -> from_accepted fs st -> from_accepted fs' st.
Proof.
  intros Hincl [Hr Hi]. split.
  - intros f Hf. destruct (Hr f Hf). auto.
  - intros img Himg. destruct (Hi img Himg) as (f & ? & ? & ?).
    exists f. auto.
Qed.

Lemma from_accepted_upload fs files st :
  from_accepted fs st ->
  from_accepted (fs ++ files) (handleImageUpload files st).
Proof.
  intros [Hr Hi]. split.
  - intros f. rewrite upload_readers, in_app_iff, filter_In.
    intros [Hf | [Hf Hsz]].
    + destruct (Hr f Hf). split; [apply in_or_app; now left | assumption].
    + split; [apply in_or_app; now right | now apply N.leb_le].
  - intros img. rewrite upload_images. intros Himg.
    destruct (Hi img Himg) as (f & ? & ? & ?).
    exists f. repeat split; try assumption. apply in_or_app; now left.
Qed.

Lemma from_accepted_onload fs k st :
  from_accepted fs st -> from_accepted fs (onload k st).
Proof.
  intros [Hr Hi]. unfold onload.
  destruct (nth_error (readers st) k) as [f|] eqn:E; [|now split].
  split; simpl.
  - intros g Hg. apply Hr. eapply remove_nth_In; eassumption.
  - intros img Himg. apply in_app_iff in Himg as [Himg | [<- | []]].
    + now apply Hi.
    + exists f. apply nth_error_In in E. destruct (Hr f E).
      now repeat split.
Qed.

Lemma from_accepted_same fs st st' :
  readers st' = readers st ->
  (forall img, In img (images st') -> In img (images st)) ->
  from_accepted fs st -> from_accepted fs st'.
Proof.
  intros Er Ei [Hr Hi]. split.
  - rewrite Er. exact Hr.
  - intros img Himg. apply Hi, Ei, Himg.
Qed.

Lemma handleSubmit_frame st :
  formData (handleSubmit st) = formData st
  /\ images (handleSubmit st) = images st
  /\ readers (handleSubmit st) = readers st.
Proof.
  unfold handleSubmit; simpl.
  repeat match goal with
         | |- context [if ?b then _ else _] => destruct b
         end; now repeat split.
Qed.

Lemma from_accepted_step fs st ev :
  from_accepted fs st ->
  from_accepted (fs ++ uploaded [ev]) (step st ev).
Proof.
  intros H.
  assert (Hmono : from_accepted (fs ++ uploaded [ev]) st)
    by (eapply from_accepted_mono; [apply incl_appl, incl_refl | exact H]).
  destruct ev as [nm v | files | k | i | | k id | k detail]; simpl.
  - eapply from_accepted_same; [| |exact Hmono]; [reflexivity | auto].
  - rewrite app_nil_r. now apply from_accepted_upload.
  - now apply from_accepted_onload.
  - eapply from_accepted_same; [| |exact Hmono]; [reflexivity|].
    simpl. intros img. apply remove_nth_In.
  - destruct (handleSubmit_frame st) as (_ & Ei & Er).
    eapply from_accepted_same; [exact Er | | exact Hmono].
    now rewrite Ei.
  - unfold post_fulfilled. destruct (nth_error (posts st) k);
      [|exact Hmono].
    eapply from_accepted_same; [| |exact Hmono]; [reflexivity | auto].
  - unfold post_rejected. destruct (nth_error (posts st) k);
      [|exact Hmono].
    eapply from_accepted_same; [| |exact Hmono]; [reflexivity | auto].
Qed.

Lemma uploaded_app evs evs' :
  uploaded (evs ++ evs') = uploaded evs ++ uploaded evs'.
Proof. unfold uploaded. apply flat_map_app. Qed.

Lemma from_accepted_run evs : forall fs st,
  from_accepted fs st ->
  from_accepted (fs ++ uploaded evs) (run st evs).
Proof.
  induction evs as [|ev evs IH]; intros fs st H.
  - unfold uploaded; simpl. now rewrite app_nil_r.
  - change (run st (ev :: evs)) with (run (step st ev) evs).
    change (ev :: evs) with ([ev] ++ evs).
    rewrite uploaded_app, app_assoc.
    apply IH. now apply from_accepted_step.
Qed.

Lemma from_accepted_initial : from_accepted [] initial.
Proof. split; intros ? []. Qed.

(** When the reads complete in the order they were started (each
    time the oldest read in flight), the payloads are listed in that
    order. *)
Lemma in_order_completion : forall (rs : list File) (st : State),
  readers st = rs ->
  images (run st (map (fun _ => ReaderLoad 0) rs))
  = images st ++ map (fun f => base64_of (dataURL f)) rs.
Proof.
  induction rs as [|f rs IH]; intros st Hrs; simpl.
  - now rewrite app_nil_r.
  - assert (H0 : nth_error (readers st) 0 = Some f) by now rewrite Hrs.
    destruct (onload_appends st 0 H0) as (Ei & Er & _).
    rewrite IH; [|now rewrite Er, Hrs].
    now rewrite Ei, <- app_assoc.
Qed.

(** ** Validation and submission *)

(** C4, counterexample.  With the title and the description both
    empty, both checks fail, and only "Title is required" is shown:
    the description's message is not reported. *)
Lemma only_first_error_shown :
  failing_checks Scenario.blank_draft
  = [lit "Title is required"; lit "Description is required"]
  /\ shown_errors (handleSubmit (Scenario.editing Scenario.blank_draft))
     = [lit "Title is required"]
  /\ ~ reports_every_error.
Proof.
  split; [reflexivity | split; [reflexivity|]].
  intros H.
  specialize (H (Scenario.editing Scenario.blank_draft)
                (lit "Description is required")).
  assert (Hin : In (lit "Description is required")
                   [lit "Title is required"])
    by (apply H; right; left; reflexivity).
  destruct Hin as [E | []]. discriminate E.
Qed.

(** C4, as the code has it.  The checks are made in the order title,
    description, price, delivery time, and the first that fails ends
    the validation: its message alone becomes the error shown, and
    nothing is posted.  When no check fails, the error is cleared and
    the payload built from the draft is posted. *)
Theorem first_failing_check_reported :
  forall st : State,
    match failing_checks (formData st) with
    | [] =>
        shown_errors (handleSubmit st) = []
        /\ posts (handleSubmit st)
           = posts st ++ [serviceData (formData st) (images st)]
    | msg :: _ =>
        error (handleSubmit st) = msg
        /\ shown_errors (handleSubmit st) = [msg]
        /\ posts (handleSubmit st) = posts st
    end.
Proof.
  intros st.
  unfold failing_checks, title_missing, description_missing,
    price_refused, delivery_refused, handleSubmit, shown_errors.
  cbn [formData setLoading setError set_posts images posts error].
  destruct (truthy (trim (title (formData st)))); cbn [negb app];
    [|now repeat split].
  destruct (truthy (trim (description (formData st)))); cbn [negb app];
    [|now repeat split].
  destruct (negb (truthy (base_price (formData st)))
            || number_le (parseFloat (base_price (formData st))) zero);
    cbn [app]; [now repeat split|].
  destruct (negb (truthy (delivery_time_days (formData st)))
            || number_le (parseInt (delivery_time_days (formData st)))
                 zero);
    cbn [app]; now repeat split.
Qed.

(** C5, the failing inputs.  A price of "abc" parses to NaN, and
    [NaN <= 0] is false: the draft passes validation and is posted
    with NaN as its price.  The same happens with a delivery time of
    "abc", and with a delivery time of ".5". *)
Theorem non_numeric_input_is_posted :
  (parseFloat (lit "abc") = NaN
   /\ number_le NaN zero = false
   /\ price_refused Scenario.abc_price_draft = false
   /\ error (handleSubmit (Scenario.editing Scenario.abc_price_draft))
      = []
   /\ map sd_base_price
        (posts (handleSubmit (Scenario.editing Scenario.abc_price_draft)))
      = [NaN])
  /\ (parseInt (lit "abc") = NaN
      /\ delivery_refused Scenario.abc_delivery_draft = false
      /\ error (handleSubmit
                  (Scenario.editing Scenario.abc_delivery_draft)) = []
      /\ map sd_delivery_time_days
           (posts (handleSubmit
                     (Scenario.editing Scenario.abc_delivery_draft)))
         = [NaN])
  /\ (parseInt (lit ".5") = NaN
      /\ map sd_delivery_time_days
           (posts (handleSubmit
                     (Scenario.editing Scenario.half_day_draft)))
         = [NaN]).
Proof. repeat split; vm_compute; reflexivity. Qed.

(** What the two numeric checks do refuse: the empty input, and any
    input whose parsed value compares [<= 0]. *)
Lemma refused_inputs_are_not_posted (st : State) :
  price_refused (formData st) = true
  \/ delivery_refused (formData st) = true ->
  posts (handleSubmit st) = posts st
  /\ truthy (error (handleSubmit st)) = true.
Proof.
  unfold price_refused, delivery_refused, handleSubmit.
  cbn [formData setLoading setError set_posts images posts error].
  intros H.
  destruct (truthy (trim (title (formData st)))); cbn [negb];
    [|now split].
  destruct (truthy (trim (description (formData st)))); cbn [negb];
    [|now split].
  destruct (negb (truthy (base_price (formData st)))
            || number_le (parseFloat (base_price (formData st))) zero);
    [now split|].
  destruct (negb (truthy (delivery_time_days (formData st)))
            || number_le (parseInt (delivery_time_days (formData st)))
                 zero);
    [now split|].
  destruct H; discriminate.
Qed.

(** The tags of a payload are exactly the non-empty trimmed segments
    of the comma-separated input. *)
Lemma payload_tags (fd : FormData) (imgs : list image) (t : str) :
  In t (sd_tags (serviceData fd imgs))
  <-> t <> [] /\ exists seg, In seg (split comma (tags fd))
                             /\ t = trim seg.
Proof.
  unfold serviceData; simpl. rewrite filter_In, in_map_iff.
  rewrite JSFacts.truthy_nonempty. split.
  - intros [(seg & <- & Hseg) Hne]. split; [assumption|].
    now exists seg.
  - intros [Hne (seg & Hseg & ->)]. split; [|assumption].
    now exists seg.
Qed.

(** C8.  The draft of the round-trip example passes every check, and
    the payload posted for it carries the price 25, the delivery time
    3 and the revision count 1 as Numbers, and the tags "logo" and
    "branding". *)
Theorem logo_draft_round_trip :
  failing_checks Scenario.logo_draft = []
  /\ error (handleSubmit (Scenario.editing Scenario.logo_draft)) = []
  /\ posts (handleSubmit (Scenario.editing Scenario.logo_draft))
     = [{| sd_title := lit "Logo Design";
           sd_description := lit "I design logos";
           sd_category := lit "graphic-design";
           sd_tags := [lit "logo"; lit "branding"];
           sd_base_price := Finite false 25 0;
           sd_delivery_time_days := Finite false 3 0;
           sd_revisions_included := Finite false 1 0;
           sd_images := [] |}]
  /\ sd_tags (serviceData Scenario.logo_draft [])
     = filter truthy
         (map trim (split comma (tags Scenario.logo_draft))).
Proof. repeat split; vm_compute; reflexivity. Qed.

(** ** Images *)

(** C6, counterexample.  Two files are selected, [one.png] before
    [two.png]; the read of [two.png] completes first.  The list then
    holds the payload of [two.png] before that of [one.png]. *)
Lemma completion_order_decides :
  map name (readers (handleImageUpload
                       [Scenario.small_1; Scenario.small_2] initial))
  = [lit "one.png"; lit "two.png"]
  /\ images (onload 0 (onload 1
               (handleImageUpload
                  [Scenario.small_1; Scenario.small_2] initial)))
     = [Some (lit "BBBB"); Some (lit "AAAA")]
  /\ ~ selection_ordered.
Proof.
  split; [reflexivity | split; [reflexivity|]].
  intros H.
  specialize (H initial Scenario.small_1 Scenario.small_2).
  assert (E : [Some (lit "BBBB"); Some (lit "AAAA")]
              = [Some (lit "AAAA"); Some (lit "BBBB")])
    by (apply H; [vm_compute; discriminate
                 | vm_compute; discriminate | reflexivity]).
  discriminate E.
Qed.

(** C6, as the code has it.  After a batch has been attached to a
    draft with no read in flight, whichever accepted file is read
    first has its payload appended first, at the end of the list as
    it is at that moment: the list is in the order of completion.
    When the reads complete in the order of selection, the payloads
    are listed in the order of selection. *)
Theorem images_in_completion_order :
  forall (st : State) (files : list File),
    readers st = [] ->
    (forall (k : nat) (f : File),
        nth_error (filter accepted files) k = Some f ->
        images (onload k (handleImageUpload files st))
        = images st ++ [base64_of (dataURL f)])
    /\ images (run (handleImageUpload files st)
                 (map (fun _ => ReaderLoad 0) (filter accepted files)))
       = images st
         ++ map (fun f => base64_of (dataURL f)) (filter accepted files).
Proof.
  intros st files Hnone.
  assert (Hr : readers (handleImageUpload files st)
               = filter accepted files)
    by now rewrite upload_readers, Hnone.
  split.
  - intros k f Hk. rewrite <- Hr in Hk.
    destruct (onload_appends _ k Hk) as (Ei & _).
    now rewrite Ei, upload_images.
  - rewrite (@in_order_completion (filter accepted files) _ Hr).
    now rewrite upload_images.
Qed.

Lemma images_in_completion_order_witness :
  images (onload 1 (handleImageUpload
                      [Scenario.small_1; Scenario.small_2] initial))
  = images initial ++ [base64_of (dataURL Scenario.small_2)].
Proof.
  apply (proj1 (images_in_completion_order initial
                  [Scenario.small_1; Scenario.small_2] eq_refl)
           1 Scenario.small_2).
  reflexivity.
Defined.

(** C7.  In a batch that holds a file [f] of exactly 5 MiB and a file
    [g] of 5 MiB + 1 byte: a read is started for every file of the
    batch within the limit, in the order of selection, [f] among them
    and [g] not; the size error is set; the image list is not touched
    by the attachment itself; when the read of [f] completes its
    payload is appended.  And in every run of the component, each
    listed image is the payload of an attached file within the
    limit. *)
Theorem size_limit_boundary :
  forall (st : State) (files : list File) (f g : File),
    In f files -> size f = (5 * 1024 * 1024)%N ->
    In g files -> size g = (5 * 1024 * 1024 + 1)%N ->
    readers (handleImageUpload files st)
    = readers st ++ filter accepted files
    /\ In f (filter accepted files)
    /\ ~ In g (filter accepted files)
    /\ error (handleImageUpload files st)
       = lit "Image files must be less than 5MB"
    /\ images (handleImageUpload files st) = images st
    /\ (forall (s : State) (k : nat),
           nth_error (readers s) k = Some f ->
           images (onload k s) = images s ++ [base64_of (dataURL f)])
    /\ (forall (evs : list event) (img : image),
           In img (images (run initial evs)) ->
           exists x, In x (uploaded evs) /\ (size x <= max_size)%N
                     /\ img = base64_of (dataURL x)).
Proof.
  intros st files f g Hf Hfs Hg Hgs.
  assert (Hacc_f : accepted f = true)
    by (unfold accepted; rewrite Hfs; reflexivity).
  assert (Hacc_g : accepted g = false)
    by (unfold accepted; rewrite Hgs; reflexivity).
  repeat split.
  - apply upload_readers.
  - apply filter_In. now split.
  - intros Hin. apply filter_In in Hin as [_ Hin]. congruence.
  - rewrite upload_error.
    destruct (forallb accepted files) eqn:Hall; [|reflexivity].
    rewrite forallb_forall in Hall. specialize (Hall g Hg). congruence.
  - apply upload_images.
  - intros s k Hk. now destruct (onload_appends s k Hk).
  - intros evs img Himg.
    destruct (from_accepted_run evs from_accepted_initial) as [_ Hi].
    exact (Hi img Himg).
Qed.

Lemma size_limit_boundary_witness :
  readers (handleImageUpload
             [Scenario.small_1; Scenario.over_5MiB;
              Scenario.exactly_5MiB; Scenario.small_2] initial)
  = readers initial
    ++ filter accepted
         [Scenario.small_1; Scenario.over_5MiB;
          Scenario.exactly_5MiB; Scenario.small_2].
Proof.
  apply (size_limit_boundary initial
           [Scenario.small_1; Scenario.over_5MiB;
            Scenario.exactly_5MiB; Scenario.small_2]
           Scenario.exactly_5MiB Scenario.over_5MiB).
  - right; right; left; reflexivity.
  - reflexivity.
  - right; left; reflexivity.
  - reflexivity.
Defined.

(** C9.  When the POST of a submission fails, the form fields and the
    image list are what they were before the answer, and the
    submission itself had not changed them either; the error shown is
    the [detail] of the backend's answer when there is a non-empty
    one, and "Failed to create service" otherwise; [loading] is
    cleared so that the form can be submitted again. *)
Theorem failed_submission_keeps_draft :
  forall (st : State) (k : nat) (detail : option str),
    k < List.length (posts st) ->
    formData (post_rejected k detail st) = formData st
    /\ images (post_rejected k detail st) = images st
    /\ formData (handleSubmit st) = formData st
    /\ images (handleSubmit st) = images st
    /\ (forall m, detail = Some m -> m <> [] ->
                  error (post_rejected k detail st) = m)
    /\ (detail = None \/ detail = Some [] ->
        error (post_rejected k detail st)
        = lit "Failed to create service")
    /\ loading (post_rejected k detail st) = false.
Proof.
  intros st k detail Hk. unfold post_rejected.
  destruct (nth_error (posts st) k) eqn:E;
    [|apply nth_error_None in E; lia].
  destruct (handleSubmit_frame st) as (Ef & Ei & _).
  repeat split; try assumption.
  - intros m -> Hm; simpl. destruct m; [contradiction | reflexivity].
  - intros [-> | ->]; reflexivity.
Qed.

Lemma failed_submission_keeps_draft_witness :
  formData (post_rejected 0 (Some (lit "Price too low"))
              (handleSubmit (Scenario.editing Scenario.logo_draft)))
  = formData (handleSubmit (Scenario.editing Scenario.logo_draft)).
Proof.
  apply (failed_submission_keeps_draft
           (handleSubmit (Scenario.editing Scenario.logo_draft))
           (k := 0) (Some (lit "Price too low"))).
  vm_compute. lia.
Defined.

End CreateServiceFacts.

(* ================================================================== *)
(** * More facts about strings                                        *)
(* ================================================================== *)

Unset Implicit Arguments.

Module TextFacts.

Import JS Runtime.

Lemma trimStart_blank (s : str) : trimStart s = [] <-> blank s = true.
Proof.
  induction s as [|c r IH]; simpl; [tauto|].
  destruct (is_white_space c); simpl; [exact IH|].
  split; discriminate.
Qed.

Lemma trimStart_head (s : str) (c : N) (r : str) :
  trimStart s = c :: r -> is_white_space c = false.
Proof.
  induction s as [|x s IH]; simpl; [discriminate|].
  destruct (is_white_space x) eqn:E; [exact IH|].
  intros H. injection H as -> _. exact E.
Qed.

Lemma trimStart_fixed (c : N) (r : str) :
  is_white_space c = false -> trimStart (c :: r) = c :: r.
Proof. intros H. simpl. now rewrite H. Qed.

Lemma trimStart_In (s : str) (c : N) : In c (trimStart s) -> In c s.
Proof.
  induction s as [|x s IH]; simpl; [tauto|].
  destruct (is_white_space x); simpl; auto.
Qed.

Lemma trimStart_snoc (s : str) (c : N) :
  is_white_space c = false -> trimStart (s ++ [c]) = trimStart s ++ [c].
Proof.
  intros H. induction s as [|x s IH]; simpl.
  - now rewrite H.
  - destruct (is_white_space x); [exact IH | reflexivity].
Qed.

Lemma trimEnd_cons (c : N) (r : str) :
  is_white_space c = false -> trimEnd (c :: r) = c :: trimEnd r.
Proof.
  intros H. unfold trimEnd. simpl.
  now rewrite (trimStart_snoc _ _ H), rev_app_distr.
Qed.

Lemma trimEnd_In (s : str) (c : N) : In c (trimEnd s) -> In c s.
Proof.
  unfold trimEnd. intros H. apply in_rev in H.
  apply trimStart_In in H. now apply in_rev.
Qed.

Lemma trimEnd_blank (s : str) : trimEnd s = [] <-> blank s = true.
Proof.
  unfold trimEnd.
  assert (Hrev : blank (rev s) = blank s).
  { unfold blank. apply eq_true_iff_eq.
    rewrite !forallb_forall. split; intros H x Hx; apply H;
      [now apply -> in_rev | now apply <- in_rev]. }
  rewrite <- Hrev, <- trimStart_blank. split.
  - intros H. apply (f_equal (@rev N)) in H.
    now rewrite rev_involutive in H.
  - now intros ->.
Qed.

(** The last code unit of a string trimmed at its end is not white
    space. *)
Lemma trimEnd_last (s r : str) (c : N) :
  trimEnd s = r ++ [c] -> is_white_space c = false.
Proof.
  unfold trimEnd. intros H.
  apply (f_equal (@rev N)) in H.
  rewrite rev_involutive, rev_app_distr in H. simpl in H.
  exact (trimStart_head _ _ _ H).
Qed.

Lemma trim_In (s : str) (c : N) : In c (trim s) -> In c s.
Proof. unfold trim. intros H. now apply trimStart_In, trimEnd_In. Qed.

Lemma blank_trimStart (s : str) :
  blank s = true -> blank (trimStart s) = true.
Proof. intros H. apply trimStart_blank in H. now rewrite H. Qed.

Lemma trim_blank (s : str) : trim s = [] <-> blank s = true.
Proof.
  unfold trim. rewrite trimEnd_blank. split.
  - destruct (trimStart s) as [|c r] eqn:E.
    + intros _. now apply trimStart_blank.
    + intros H. simpl in H. rewrite (trimStart_head _ _ _ E) in H.
      discriminate.
  - apply blank_trimStart.
Qed.

Lemma trim_head (s : str) (c : N) (r : str) :
  trim s = c :: r -> is_white_space c = false.
Proof.
  unfold trim. destruct (trimStart s) as [|x t] eqn:E.
  - discriminate.
  - pose proof (trimStart_head _ _ _ E) as Hx.
    rewrite (trimEnd_cons _ _ Hx). intros H. injection H as -> _.
    exact Hx.
Qed.

Lemma trim_last (s r : str) (c : N) :
  trim s = r ++ [c] -> is_white_space c = false.
Proof. unfold trim. apply trimEnd_last. Qed.

Lemma trimEnd_fixed (s : str) (c : N) :
  is_white_space c = false -> trimEnd (s ++ [c]) = s ++ [c].
Proof.
  intros H. unfold trimEnd. rewrite rev_app_distr. simpl.
  rewrite H. simpl. now rewrite rev_involutive.
Qed.

(** [trim] removes nothing from a string that neither starts nor ends
    with white space; so trimming twice is trimming once. *)
Lemma trim_idempotent (s : str) : trim (trim s) = trim s.
Proof.
  destruct (trim s) as [|c r] eqn:E; [reflexivity|].
  pose proof (trim_head _ _ _ E) as Hc.
  unfold trim at 1. rewrite (trimStart_fixed c r Hc).
  destruct (@exists_last _ (c :: r)) as (r' & z & Ez); [discriminate|].
  rewrite Ez. apply trimEnd_fixed.
  rewrite Ez in E. exact (trim_last _ _ _ E).
Qed.

(** ** [split] *)

Lemma split_nonempty (sep : N) (s : str) : split sep s <> [].
Proof.
  induction s as [|c r IH]; simpl; [discriminate|].
  destruct (N.eqb c sep); [discriminate|].
  destruct (split sep r); [contradiction | discriminate].
Qed.

Lemma split_no_separator (sep : N) (s seg : str) :
  In seg (split sep s) -> ~ In sep seg.
Proof.
  revert seg; induction s as [|c r IH]; intros seg; simpl.
  - intros [<- | []]. tauto.
  - destruct (N.eqb c sep) eqn:E.
    + intros [<- | H]; [tauto | now apply IH].
    + destruct (split sep r) as [|h t] eqn:Er.
      * now destruct (split_nonempty sep r).
      * apply N.eqb_neq in E.
        intros [<- | H].
        -- intros [-> | Hin]; [congruence|].
           apply (IH h); [now left | assumption].
        -- apply IH. now right.
Qed.

(** Joining the segments with the separator gives the string back. *)
Lemma join_split (sep : N) (s : str) : join [sep] (split sep s) = s.
Proof.
  induction s as [|c r IH]; simpl; [reflexivity|].
  destruct (N.eqb c sep) eqn:E.
  - apply N.eqb_eq in E. subst c.
    destruct (split sep r) as [|h t] eqn:Er.
    + now destruct (split_nonempty sep r).
    + simpl. simpl in IH. now rewrite IH.
  - destruct (split sep r) as [|h t] eqn:Er.
    + now destruct (split_nonempty sep r).
    + simpl in *. destruct t; simpl in *; now rewrite <- IH.
Qed.

End TextFacts.

(* ================================================================== *)
(** * More facts about Numbers                                        *)
(* ================================================================== *)

Module NumberFacts.

Import JS Runtime.

Lemma normal_shape (neg : bool) (m e : Z) :
  exists m' e', normal neg m e = Finite neg m' e'.
Proof.
  unfold normal. destruct m as [|p|p]; try (now exists 0%N, 0%Z).
  destruct (strip_twos p e) as [p' e']. now exists (Npos p'), e'.
Qed.

Lemma round_ratio_shape (neg : bool) (a b : Z) :
  round_ratio neg a b = Infinity neg
  \/ exists m e, round_ratio neg a b = Finite neg m e.
Proof.
  unfold round_ratio.
  match goal with
  | |- context [if ?c then Infinity neg else _] => destruct c
  end; [now left | right; apply normal_shape].
Qed.

(** A decimal never rounds to NaN, and keeps its sign. *)
Lemma of_decimal_shape (neg : bool) (d : N) (x : Z) :
  of_decimal neg d x = Infinity neg
  \/ exists m e, of_decimal neg d x = Finite neg m e.
Proof.
  unfold of_decimal. destruct (N.eqb d 0).
  - right. now exists 0%N, 0%Z.
  - destruct (0 <=? x)%Z; apply round_ratio_shape.
Qed.

(** [x <= 0] is false exactly for NaN, for plus infinity and for the
    finite values above zero. *)
Lemma not_le_zero (x : number) :
  number_le x zero = false
  <-> x = NaN \/ x = Infinity false
      \/ exists m e, x = Finite false m e /\ m <> 0%N.
Proof.
  destruct x as [|neg|neg m e]; simpl.
  - split; [now left | reflexivity].
  - destruct neg; split; try discriminate.
    + intros [H | [H | (m & e & H & _)]]; discriminate.
    + intros _. right. now left.
    + reflexivity.
  - assert (Hpow : (0 < 2 ^ (e - Z.min e 0))%Z)
      by (apply Z.pow_pos_nonneg; lia).
    rewrite Z.leb_gt.
    unfold signed. split.
    + intros H. right. right. exists m, e.
      destruct neg; [nia|]. split; [reflexivity|].
      intros ->. simpl in H. lia.
    + intros [H | [H | (m' & e' & H & Hm)]]; try discriminate.
      injection H as -> -> ->.
      assert (0 < Z.of_N m')%Z by lia. nia.
Qed.

(** ** Integers below [2^53] are represented exactly *)

Lemma normal_shift (neg : bool) (j : nat) : forall (p : positive) (e : Z),
  normal neg (Zpos p * 2 ^ Z.of_nat j) (e - Z.of_nat j)
  = normal neg (Zpos p) e.
Proof.
  induction j as [|j IH]; intros p e.
  - simpl Z.of_nat. now rewrite Z.mul_1_r, Z.sub_0_r.
  - rewrite Nat2Z.inj_succ, Z.pow_succ_r by lia.
    replace (Zpos p * (2 * 2 ^ Z.of_nat j))%Z
      with (Zpos (xO p) * 2 ^ Z.of_nat j)%Z by (rewrite Pos2Z.inj_xO; ring).
    replace (e - Z.succ (Z.of_nat j))%Z with (e - 1 - Z.of_nat j)%Z by lia.
    rewrite IH. unfold normal. simpl.
    now replace (e - 1 + 1)%Z with e by lia.
Qed.

Lemma floor_log2_integer (n : Z) :
  (0 < n)%Z -> floor_log2_ratio n 1 = Z.log2 n.
Proof.
  intros Hn. unfold floor_log2_ratio.
  change (Z.log2 1) with 0%Z. rewrite Z.sub_0_r.
  pose proof (Z.log2_nonneg n) as Hl.
  destruct (0 <=? Z.log2 n)%Z eqn:E; [|apply Z.leb_gt in E; lia].
  rewrite Z.mul_1_l.
  destruct (Z.log2_spec n Hn) as [Hlow _].
  apply Z.leb_le in Hlow. now rewrite Hlow.
Qed.

Lemma round_integer (neg : bool) (n : Z) :
  (0 < n < 2 ^ 53)%Z -> round_ratio neg n 1 = normal neg n 0.
Proof.
  intros [Hpos Hlt]. unfold round_ratio.
  rewrite (floor_log2_integer n Hpos).
  assert (Hl : (0 <= Z.log2 n <= 52)%Z).
  { split; [apply Z.log2_nonneg|].
    apply Z.log2_lt_pow2 in Hlt; lia. }
  rewrite Z.max_l by lia.
  set (e := (Z.log2 n - 52)%Z).
  assert (He : (-52 <= e <= 0)%Z) by (unfold e; lia).
  assert (Hnum : ((if e <? 0 then n * 2 ^ (- e) else n)
                  = n * 2 ^ (- e))%Z).
  { destruct (e <? 0)%Z eqn:E; [reflexivity|].
    apply Z.ltb_ge in E. assert (e = 0)%Z by lia. subst e.
    replace (Z.log2 n - 52)%Z with 0%Z by lia. simpl. lia. }
  assert (Hden : ((if e <? 0 then 1 else 1 * 2 ^ e) = 1)%Z).
  { destruct (e <? 0)%Z eqn:E; [reflexivity|].
    apply Z.ltb_ge in E. assert (H0 : e = 0%Z) by lia.
    rewrite H0. reflexivity. }
  rewrite Hnum, Hden, Z.div_1_r, Z.mod_1_r. simpl (2 * 0)%Z.
  change (1 <? 0)%Z with false. change (1 =? 0)%Z with false.
  cbn [orb andb].
  assert (H971 : ((971 <? e) || (e =? 971) && (2 ^ 53 <=? n * 2 ^ (- e))
                  = false)%Z).
  { apply orb_false_iff. split; [apply Z.ltb_ge; lia|].
    apply andb_false_iff. left. apply Z.eqb_neq. lia. }
  rewrite H971.
  destruct n as [|p|p]; try lia.
  replace (- e)%Z with (Z.of_nat (Z.to_nat (- e))) by lia.
  replace e with (0 - Z.of_nat (Z.to_nat (- e)))%Z at 2 by lia.
  apply normal_shift.
Qed.

Lemma of_decimal_integer (n : N) :
  (n < 2 ^ 53)%N -> of_decimal false n 0 = integer n.
Proof.
  intros Hn. unfold of_decimal, integer.
  destruct (N.eqb n 0) eqn:E.
  - apply N.eqb_eq in E. now subst n.
  - apply N.eqb_neq in E. simpl. rewrite Z.mul_1_r.
    apply round_integer. split; [lia|].
    change (2 ^ 53)%Z with (Z.of_N (2 ^ 53)). lia.
Qed.

(** ** Plain decimal numerals *)

Lemma trimStart_fixed_digit (d : N) (r : str) :
  is_white_space (digit_char d) = false ->
  trimStart (digit_char d :: r) = digit_char d :: r.
Proof. intros H. cbn [trimStart]. now rewrite H. Qed.

Lemma digit_cases (d : N) :
  (d < 10)%N ->
  (d = 0 \/ d = 1 \/ d = 2 \/ d = 3 \/ d = 4 \/ d = 5
   \/ d = 6 \/ d = 7 \/ d = 8 \/ d = 9)%N.
Proof. lia. Qed.

Lemma digit_in_digit_char (d : N) :
  (d < 10)%N -> digit_in 10 (digit_char d) = Some d.
Proof.
  intros H. apply digit_cases in H.
  repeat (destruct H as [-> | H]; [reflexivity|]).
  now subst d.
Qed.

Lemma span_digits_numeral (ds : list N) :
  Forall (fun d => (d < 10)%N) ds ->
  span_digits 10 (numeral ds) = (ds, []).
Proof.
  unfold numeral.
  induction 1 as [|d ds Hd _ IH]; [reflexivity|].
  cbn [map span_digits]. now rewrite (digit_in_digit_char d Hd), IH.
Qed.

(** A digit is not white space, not a sign, not the letter I, and
    not the letter x or X. *)
Lemma digit_char_plain (d : N) :
  (d < 10)%N ->
  is_white_space (digit_char d) = false
  /\ (forall r, take_sign (digit_char d :: r) = (false, digit_char d :: r))
  /\ (forall r, starts_with (lit "Infinity") (digit_char d :: r) = false)
  /\ digit_char d <> 120%N /\ digit_char d <> 88%N.
Proof.
  intros H. apply digit_cases in H.
  repeat (destruct H as [-> | H];
          [repeat split; try reflexivity; discriminate|]).
  subst d. repeat split; try reflexivity; discriminate.
Qed.

Lemma parseInt_numeral (ds : list N) :
  ds <> [] -> Forall (fun d => (d < 10)%N) ds ->
  parseInt (numeral ds) = of_decimal false (digits_value 10 ds) 0.
Proof.
  intros Hne Hall.
  destruct ds as [|d1 ds]; [contradiction|].
  inversion Hall as [|? ? Hd1 Hds]; subst.
  destruct (digit_char_plain d1 Hd1) as (Hws & Hsign & _ & _ & _).
  unfold parseInt.
  change (numeral (d1 :: ds)) with (digit_char d1 :: numeral ds).
  rewrite (trimStart_fixed_digit d1 (numeral ds) Hws), Hsign.
  match goal with
  | |- (let (_, _) := ?M in _) = _ =>
      assert (Hradix : M = (10%N, digit_char d1 :: numeral ds))
  end.
  { destruct ds as [|d2 ds'].
    - apply digit_cases in Hd1.
      repeat (destruct Hd1 as [-> | Hd1]; [reflexivity|]).
      now subst d1.
    - inversion Hds as [|? ? Hd2 _]; subst.
      change (numeral (d2 :: ds')) with (digit_char d2 :: numeral ds').
      apply digit_cases in Hd1. apply digit_cases in Hd2.
      repeat (destruct Hd1 as [-> | Hd1];
              [repeat (destruct Hd2 as [-> | Hd2]; [reflexivity|]);
               now subst d2|]).
      subst d1.
      repeat (destruct Hd2 as [-> | Hd2]; [reflexivity|]).
      now subst d2. }
  rewrite Hradix.
  change (digit_char d1 :: numeral ds) with (numeral (d1 :: ds)).
  now rewrite (span_digits_numeral (d1 :: ds) Hall).
Qed.

Lemma parseFloat_numeral (ds : list N) :
  ds <> [] -> Forall (fun d => (d < 10)%N) ds ->
  parseFloat (numeral ds) = of_decimal false (digits_value 10 ds) 0.
Proof.
  intros Hne Hall.
  destruct ds as [|d1 ds]; [contradiction|].
  inversion Hall as [|? ? Hd1 Hds]; subst.
  destruct (digit_char_plain d1 Hd1) as (Hws & Hsign & Hinf & _ & _).
  unfold parseFloat.
  change (numeral (d1 :: ds)) with (digit_char d1 :: numeral ds).
  rewrite (trimStart_fixed_digit d1 (numeral ds) Hws), Hsign, Hinf.
  change (digit_char d1 :: numeral ds) with (numeral (d1 :: ds)).
  unfold unsigned_decimal.
  rewrite (span_digits_numeral (d1 :: ds) Hall).
  cbn [exponent_part List.length Z.of_nat]. now rewrite app_nil_r.
Qed.

(** A plain decimal numeral below [2^53] is read exactly, by
    [parseInt] and by [parseFloat] alike. *)
Lemma numeral_exact (ds : list N) :
  ds <> [] -> Forall (fun d => (d < 10)%N) ds ->
  (digits_value 10 ds < 2 ^ 53)%N ->
  parseInt (numeral ds) = integer (digits_value 10 ds)
  /\ parseFloat (numeral ds) = integer (digits_value 10 ds).
Proof.
  intros Hne Hall Hlt.
  rewrite (parseInt_numeral ds Hne Hall), (parseFloat_numeral ds Hne Hall).
  split; apply of_decimal_integer; exact Hlt.
Qed.

(** The Number of a positive integer is above zero. *)
Lemma integer_positive (n : N) :
  (0 < n)%N -> number_le (integer n) zero = false.
Proof.
  intros Hn. apply not_le_zero. right. right.
  unfold integer, normal. destruct n as [|p]; [lia|]. simpl.
  destruct (strip_twos p 0) as [p' e']. exists (Npos p'), e'.
  split; [reflexivity | discriminate].
Qed.

End NumberFacts.

(* ================================================================== *)
(** * More facts about the listing draft                              *)
(* ================================================================== *)

Module DraftFacts.

Import JS Runtime CreateService DraftPage.

(** ** Removing an image *)

Lemma filter_other_index_past {A : Type} (l : list A) :
  forall from index, index < from ->
  filter_other_index from index l = l.
Proof.
  induction l as [|x l IH]; intros from index H; simpl; [reflexivity|].
  destruct (Nat.eqb from index) eqn:E; [apply Nat.eqb_eq in E; lia|].
  now rewrite IH by lia.
Qed.

Lemma filter_other_index_remove {A : Type} (l : list A) :
  forall from k, filter_other_index from (from + k) l = remove_nth k l.
Proof.
  induction l as [|x l IH]; intros from k; [now destruct k|].
  destruct k as [|k]; simpl.
  - rewrite Nat.add_0_r, Nat.eqb_refl.
    apply filter_other_index_past. lia.
  - destruct (Nat.eqb from (from + S k)) eqn:E;
      [apply Nat.eqb_eq in E; lia|].
    replace (from + S k) with (S from + k) by lia.
    now rewrite IH.
Qed.

Lemma remove_nth_lookup {A : Type} (l : list A) :
  forall k j,
    nth_error (remove_nth k l) j
    = if Nat.ltb j k then nth_error l j else nth_error l (S j).
Proof.
  induction l as [|x l IH]; intros k j.
  - destruct k, j; simpl; try destruct (Nat.ltb _ _); reflexivity.
  - destruct k as [|k]; [reflexivity|].
    destruct j as [|j]; [reflexivity|].
    simpl remove_nth. simpl nth_error. rewrite IH.
    reflexivity.
Qed.

Lemma remove_nth_beyond {A : Type} (l : list A) :
  forall k, List.length l <= k -> remove_nth k l = l.
Proof.
  induction l as [|x l IH]; intros k H; [now destruct k|].
  destruct k as [|k]; simpl in *; [lia|]. now rewrite IH by lia.
Qed.

Lemma remove_nth_length {A : Type} (l : list A) :
  forall k, k < List.length l ->
  List.length (remove_nth k l) = List.length l - 1.
Proof.
  induction l as [|x l IH]; intros k H; simpl in *; [lia|].
  destruct k as [|k]; simpl; [lia|].
  rewrite IH by lia. lia.
Qed.

(** X1.  [removeImage(index)] keeps exactly the images whose position
    is not [index]: the images before [index] stay where they are, the
    images after it move up by one place, and with an [index] past the
    end the list is left as it is.  Nothing else of the draft is
    touched. *)
Theorem removeImage_removes_one_position :
  forall (st : State) (index : nat),
    images (removeImage index st)
    = filter_other_index 0 index (images st)
    /\ (forall j, nth_error (images (removeImage index st)) j
                  = if Nat.ltb j index then nth_error (images st) j
                    else nth_error (images st) (S j))
    /\ (index < List.length (images st) ->
        List.length (images (removeImage index st))
        = List.length (images st) - 1)
    /\ (List.length (images st) <= index ->
        images (removeImage index st) = images st)
    /\ formData (removeImage index st) = formData st
    /\ readers (removeImage index st) = readers st
    /\ posts (removeImage index st) = posts st.
Proof.
  intros st index. unfold removeImage; simpl.
  repeat split.
  - symmetry. apply (filter_other_index_remove (images st) 0 index).
  - intros j. apply remove_nth_lookup.
  - apply remove_nth_length.
  - apply remove_nth_beyond.
Qed.

Lemma removeImage_removes_one_position_witness :
  images (removeImage 5 (setImages [Some (lit "AAAA")] initial))
  = images (setImages [Some (lit "AAAA")] initial).
Proof.
  apply (removeImage_removes_one_position
           (setImages [Some (lit "AAAA")] initial) 5).
  simpl. lia.
Defined.

(** ** One submission at a time *)

Lemma upload_loading_posts files : forall st,
  loading (handleImageUpload files st) = loading st
  /\ posts (handleImageUpload files st) = posts st.
Proof.
  unfold handleImageUpload.
  induction files as [|f files IH]; intros st; simpl; [now split|].
  destruct (IH (upload_one st f)) as [-> ->].
  unfold upload_one. now destruct (N.ltb max_size (size f)).
Qed.

Lemma onload_loading_posts k st :
  loading (onload k st) = loading st /\ posts (onload k st) = posts st.
Proof. unfold onload. now destruct (nth_error (readers st) k). Qed.

Lemma handleSubmit_outcome st :
  (loading (handleSubmit st) = false
   /\ posts (handleSubmit st) = posts st
   /\ error (handleSubmit st) <> []
   /\ failing_checks (formData st) <> [])
  \/ (loading (handleSubmit st) = true
      /\ posts (handleSubmit st)
         = posts st ++ [serviceData (formData st) (images st)]
      /\ error (handleSubmit st) = []
      /\ failing_checks (formData st) = []).
Proof.
  unfold failing_checks, title_missing, description_missing,
    price_refused, delivery_refused, handleSubmit.
  cbn [formData setLoading setError set_posts images posts error loading].
  destruct (truthy (trim (title (formData st)))); cbn [negb app];
    [|left; repeat split; discriminate].
  destruct (truthy (trim (description (formData st)))); cbn [negb app];
    [|left; repeat split; discriminate].
  destruct (negb (truthy (base_price (formData st)))
            || number_le (parseFloat (base_price (formData st))) zero);
    cbn [app]; [left; repeat split; discriminate|].
  destruct (negb (truthy (delivery_time_days (formData st)))
            || number_le (parseInt (delivery_time_days (formData st)))
                 zero);
    cbn [app]; [left; repeat split; discriminate|].
  right. now repeat split.
Qed.

Lemma settled_or_single_step st ev :
  settled_or_single st -> enabled st ev = true ->
  settled_or_single (step st ev).
Proof.
  intros Inv En.
  destruct ev as [nm v | files | k | i | | k id | k detail]; simpl.
  - exact Inv.
  - unfold settled_or_single.
    destruct (upload_loading_posts files st) as [-> ->]. exact Inv.
  - unfold settled_or_single.
    destruct (onload_loading_posts k st) as [-> ->]. exact Inv.
  - exact Inv.
  - simpl in En. unfold submit_disabled in En.
    apply negb_true_iff in En.
    destruct Inv as [[Hl _] | [_ Hp]]; [congruence|].
    destruct (handleSubmit_outcome st) as [(Hl & Hposts & _)
                                          | (Hl & Hposts & _)].
    + right. split; [assumption | congruence].
    + left. split; [assumption|]. rewrite Hposts, Hp. reflexivity.
  - simpl in En. apply Nat.ltb_lt in En.
    destruct Inv as [[_ Hlen] | [_ Hp]];
      [|rewrite Hp in En; simpl in En; lia].
    unfold post_fulfilled.
    destruct (posts st) as [|p [|q r]] eqn:Ep; try discriminate.
    destruct k as [|k]; [|simpl in En; lia].
    right. now split.
  - simpl in En. apply Nat.ltb_lt in En.
    destruct Inv as [[_ Hlen] | [_ Hp]];
      [|rewrite Hp in En; simpl in En; lia].
    unfold post_rejected.
    destruct (posts st) as [|p [|q r]] eqn:Ep; try discriminate.
    destruct k as [|k]; [|simpl in En; lia].
    right. now split.
Qed.

Lemma settled_or_single_run evs : forall st,
  settled_or_single st -> possible st evs = true ->
  settled_or_single (run st evs).
Proof.
  induction evs as [|ev evs IH]; intros st Inv Hp; [exact Inv|].
  simpl in Hp. apply andb_true_iff in Hp as [En Hp].
  change (run st (ev :: evs)) with (run (step st ev) evs).
  apply IH; [now apply settled_or_single_step | exact Hp].
Qed.

(** X2.  As the submit button is disabled while [loading] is set, at
    most one POST is outstanding at any time, and [loading] is set
    exactly while one is. *)
Theorem one_submission_at_a_time :
  forall evs : list event,
    possible initial evs = true ->
    List.length (posts (run initial evs)) <= 1
    /\ (loading (run initial evs) = true
        <-> posts (run initial evs) <> []).
Proof.
  intros evs Hp.
  assert (Inv : settled_or_single (run initial evs)).
  { apply settled_or_single_run; [|exact Hp]. right. now split. }
  destruct Inv as [[Hl Hlen] | [Hl Hposts]].
  - split; [lia|]. split; [|intros _; exact Hl].
    intros _ E. rewrite E in Hlen. discriminate.
  - rewrite Hposts. split; [simpl; lia|].
    split; [congruence | intros H; now contradiction H].
Qed.

Lemma one_submission_at_a_time_witness :
  List.length
    (posts (run initial
              [Change Title (lit "Logo Design");
               Change Description (lit "I design logos");
               Change BasePrice (lit "25.00");
               Change DeliveryTimeDays (lit "3");
               Submit])) <= 1.
Proof.
  apply (one_submission_at_a_time
           [Change Title (lit "Logo Design");
            Change Description (lit "I design logos");
            Change BasePrice (lit "25.00");
            Change DeliveryTimeDays (lit "3");
            Submit]).
  reflexivity.
Defined.

(** ** What a submission carries *)

(** X3.  A submission posts the images listed at that moment.  A read
    that completes afterwards adds its payload to the list of the
    draft, and the payload already posted is not changed. *)
Theorem late_images_miss_the_post :
  forall (st : State) (k : nat) (f : File),
    failing_checks (formData st) = [] ->
    nth_error (readers st) k = Some f ->
    posts (handleSubmit st)
    = posts st ++ [serviceData (formData st) (images st)]
    /\ sd_images (serviceData (formData st) (images st)) = images st
    /\ posts (onload k (handleSubmit st)) = posts (handleSubmit st)
    /\ images (onload k (handleSubmit st))
       = images st ++ [base64_of (dataURL f)].
Proof.
  intros st k f Hok Hk.
  destruct (handleSubmit_outcome st)
    as [(_ & _ & _ & Hbad) | (_ & Hp & _)]; [contradiction|].
  destruct (CreateServiceFacts.handleSubmit_frame st) as (_ & Ei & Er).
  assert (Hk' : nth_error (readers (handleSubmit st)) k = Some f)
    by now rewrite Er.
  destruct (CreateServiceFacts.onload_appends (handleSubmit st) k Hk')
    as (Eimg & _ & _).
  repeat split.
  - exact Hp.
  - apply (onload_loading_posts k (handleSubmit st)).
  - now rewrite Eimg, Ei.
Qed.

Lemma late_images_miss_the_post_witness :
  posts (onload 0 (handleSubmit
                     (handleImageUpload [Scenario.small_1]
                        (Scenario.editing Scenario.logo_draft))))
  = posts (handleSubmit
             (handleImageUpload [Scenario.small_1]
                (Scenario.editing Scenario.logo_draft))).
Proof.
  apply (late_images_miss_the_post
           (handleImageUpload [Scenario.small_1]
              (Scenario.editing Scenario.logo_draft))
           0 Scenario.small_1); reflexivity.
Defined.

Lemma truthy_trim_blank (s : str) :
  truthy (trim s) = negb (blank s).
Proof.
  destruct (blank s) eqn:E.
  - apply TextFacts.trim_blank in E. now rewrite E.
  - destruct (trim s) eqn:Et; [|reflexivity].
    apply TextFacts.trim_blank in Et. congruence.
Qed.

(** X4.  Whatever is posted has a title and a description that are
    not blank, and a price and a delivery time that are NaN, plus
    infinity or a finite value above zero: a zero or negative price or
    delivery time is never posted. *)
Theorem posted_values :
  forall (st : State) (sd : ServiceData),
    posts (handleSubmit st) = posts st ++ [sd] ->
    sd = serviceData (formData st) (images st)
    /\ blank (sd_title sd) = false
    /\ blank (sd_description sd) = false
    /\ nan_or_above_zero (sd_base_price sd)
    /\ nan_or_above_zero (sd_delivery_time_days sd).
Proof.
  intros st sd Hposted.
  destruct (handleSubmit_outcome st)
    as [(_ & Hp & _) | (_ & Hp & _ & Hok)].
  - rewrite Hp in Hposted.
    apply (f_equal (@List.length ServiceData)) in Hposted.
    rewrite length_app in Hposted. simpl in Hposted. lia.
  - rewrite Hp in Hposted. apply app_inv_head in Hposted.
    injection Hposted as <-.
    unfold failing_checks, title_missing, description_missing,
      price_refused, delivery_refused in Hok.
    rewrite !truthy_trim_blank, !negb_involutive in Hok.
    destruct (blank (title (formData st))) eqn:Et;
      cbn [app] in Hok; [discriminate|].
    destruct (blank (description (formData st))) eqn:Ed;
      cbn [app] in Hok; [discriminate|].
    destruct (negb (truthy (base_price (formData st)))
              || number_le (parseFloat (base_price (formData st))) zero)
      eqn:Ep; cbn [app] in Hok; [discriminate|].
    destruct (negb (truthy (delivery_time_days (formData st)))
              || number_le (parseInt (delivery_time_days (formData st)))
                   zero)
      eqn:Edl; [discriminate|].
    apply orb_false_iff in Ep as [_ Ep].
    apply orb_false_iff in Edl as [_ Edl].
    repeat split; try assumption.
    + now apply NumberFacts.not_le_zero.
    + now apply NumberFacts.not_le_zero.
Qed.

Lemma posted_values_witness :
  nan_or_above_zero
    (sd_base_price (serviceData Scenario.logo_draft [])).
Proof.
  apply (posted_values (Scenario.editing Scenario.logo_draft)
           (serviceData Scenario.logo_draft [])).
  reflexivity.
Defined.

(** X5.  A title made only of white space is refused like an empty
    one, and so is a description made only of white space once the
    title is in order: the message of that check is shown, nothing is
    posted and [loading] is cleared. *)
Theorem blank_text_is_refused :
  forall st : State,
    (blank (title (formData st)) = true ->
     error (handleSubmit st) = lit "Title is required"
     /\ posts (handleSubmit st) = posts st
     /\ loading (handleSubmit st) = false)
    /\ (blank (title (formData st)) = false ->
        blank (description (formData st)) = true ->
        error (handleSubmit st) = lit "Description is required"
        /\ posts (handleSubmit st) = posts st
        /\ loading (handleSubmit st) = false).
Proof.
  intros st. unfold handleSubmit.
  cbn [formData setLoading setError set_posts images posts error loading].
  rewrite !truthy_trim_blank, !negb_involutive.
  split.
  - intros ->. now repeat split.
  - intros -> ->. now repeat split.
Qed.

Lemma blank_text_is_refused_witness :
  error (handleSubmit
           (Scenario.editing
              (Scenario.draft "   " "I design logos" "25.00" "3")))
  = lit "Title is required".
Proof.
  apply (blank_text_is_refused
           (Scenario.editing
              (Scenario.draft "   " "I design logos" "25.00" "3"))).
  reflexivity.
Defined.

Lemma split_In (sep : N) (s seg : str) (c : N) :
  In seg (split sep s) -> In c seg -> In c s.
Proof.
  revert seg; induction s as [|x r IH]; intros seg; simpl.
  - intros [<- | []] [].
  - destruct (N.eqb x sep).
    + intros [<- | H] Hc; [destruct Hc | right; eauto].
    + destruct (split sep r) as [|h t] eqn:Er.
      * intros [<- | []] [-> | []]. now left.
      * intros [<- | H] Hc.
        -- destruct Hc as [-> | Hc]; [now left | right].
           apply (IH h); [now left | assumption].
        -- right. apply (IH seg); [now right | assumption].
Qed.

(** X6.  Every tag of a payload is a piece of the tags input between
    two commas with the white space around it removed: it is not
    empty, holds no comma, and neither starts nor ends with white
    space.  An input made only of commas and white space gives no tag
    at all. *)
Theorem tags_are_clean :
  forall (fd : FormData) (imgs : list image),
    (forall t, In t (sd_tags (serviceData fd imgs)) ->
       t <> []
       /\ ~ In comma t
       /\ (forall c r, t = c :: r -> is_white_space c = false)
       /\ (forall r c, t = r ++ [c] -> is_white_space c = false)
       /\ (forall c, In c t -> In c (tags fd)))
    /\ (forallb (fun c => N.eqb c comma || is_white_space c) (tags fd)
        = true ->
        sd_tags (serviceData fd imgs) = []).
Proof.
  intros fd imgs. split.
  - intros t Ht.
    apply CreateServiceFacts.payload_tags in Ht
      as [Hne (seg & Hseg & ->)].
    repeat split.
    + exact Hne.
    + intros Hin. apply TextFacts.trim_In in Hin.
      exact (TextFacts.split_no_separator comma (tags fd) seg Hseg Hin).
    + intros c r E. exact (TextFacts.trim_head seg c r E).
    + intros r c E. exact (TextFacts.trim_last seg r c E).
    + intros c Hc. apply TextFacts.trim_In in Hc.
      exact (split_In comma (tags fd) seg c Hseg Hc).
  - intros Hall.
    destruct (sd_tags (serviceData fd imgs)) as [|t ts] eqn:E;
      [reflexivity|].
    assert (Ht : In t (sd_tags (serviceData fd imgs)))
      by (rewrite E; now left).
    apply CreateServiceFacts.payload_tags in Ht
      as [Hne (seg & Hseg & ->)].
    exfalso. apply Hne. apply TextFacts.trim_blank.
    unfold blank. apply forallb_forall. intros c Hc.
    rewrite forallb_forall in Hall.
    pose proof (Hall c (split_In comma (tags fd) seg c Hseg Hc)) as Hcw.
    apply orb_true_iff in Hcw as [Hcomma | Hw]; [|exact Hw].
    apply N.eqb_eq in Hcomma. subst c.
    now destruct (TextFacts.split_no_separator comma (tags fd) seg Hseg).
Qed.

Lemma tags_are_clean_witness :
  sd_tags (serviceData
             (set_field Tags (lit " , ,, ") Scenario.logo_draft) [])
  = [].
Proof.
  apply (tags_are_clean
           (set_field Tags (lit " , ,, ") Scenario.logo_draft) []).
  reflexivity.
Defined.

(** X7.  Attaching a batch sets the size error exactly when one of its
    files is over the limit; a batch of files within the limit leaves
    the error as it was, so an earlier message stays on screen.  The
    form fields, the images listed and the POSTs outstanding are not
    changed by attaching. *)
Theorem attaching_and_the_error :
  forall (files : list File) (st : State),
    (forallb accepted files = true ->
     error (handleImageUpload files st) = error st)
    /\ (forallb accepted files = false ->
        error (handleImageUpload files st)
        = lit "Image files must be less than 5MB")
    /\ formData (handleImageUpload files st) = formData st
    /\ images (handleImageUpload files st) = images st
    /\ posts (handleImageUpload files st) = posts st
    /\ List.length (readers (handleImageUpload files st))
       = List.length (readers st)
         + List.length (filter accepted files).
Proof.
  intros files st. repeat split.
  - intros H. now rewrite CreateServiceFacts.upload_error, H.
  - intros H. now rewrite CreateServiceFacts.upload_error, H.
  - apply CreateServiceFacts.upload_formData.
  - apply CreateServiceFacts.upload_images.
  - apply upload_loading_posts.
  - now rewrite CreateServiceFacts.upload_readers, length_app.
Qed.

Lemma attaching_and_the_error_witness :
  error (handleImageUpload [Scenario.small_1; Scenario.small_2]
           (setError (lit "Title is required") initial))
  = error (setError (lit "Title is required") initial).
Proof.
  apply (attaching_and_the_error [Scenario.small_1; Scenario.small_2]
           (setError (lit "Title is required") initial)).
  reflexivity.
Defined.

(** X8.  A price and a delivery time typed as plain decimal numerals
    of integers between 1 and [2^53 - 1] pass their checks and are
    posted as exactly those integers. *)
Theorem plain_numerals_are_posted_exactly :
  forall (st : State) (pd dd : list N),
    blank (title (formData st)) = false ->
    blank (description (formData st)) = false ->
    base_price (formData st) = numeral pd ->
    delivery_time_days (formData st) = numeral dd ->
    Forall (fun d => (d < 10)%N) pd ->
    Forall (fun d => (d < 10)%N) dd ->
    (0 < digits_value 10 pd < 2 ^ 53)%N ->
    (0 < digits_value 10 dd < 2 ^ 53)%N ->
    exists sd,
      posts (handleSubmit st) = posts st ++ [sd]
      /\ sd_base_price sd = integer (digits_value 10 pd)
      /\ sd_delivery_time_days sd = integer (digits_value 10 dd).
Proof.
  intros st pd dd Ht Hd Hp Hdl Hpd Hdd [Hp0 Hp53] [Hd0 Hd53].
  assert (Hpne : pd <> []) by (intros ->; cbv in Hp0; discriminate).
  assert (Hdne : dd <> []) by (intros ->; cbv in Hd0; discriminate).
  destruct (NumberFacts.numeral_exact pd Hpne Hpd Hp53) as [_ Epf].
  destruct (NumberFacts.numeral_exact dd Hdne Hdd Hd53) as [Edi _].
  exists (serviceData (formData st) (images st)).
  unfold handleSubmit.
  cbn [formData setLoading setError set_posts images posts error loading].
  rewrite !truthy_trim_blank, Ht, Hd. cbn [negb].
  rewrite Hp, Hdl, Epf, Edi.
  rewrite (NumberFacts.integer_positive _ Hp0),
    (NumberFacts.integer_positive _ Hd0).
  assert (Tp : truthy (numeral pd) = true)
    by (destruct pd; [contradiction | reflexivity]).
  assert (Td : truthy (numeral dd) = true)
    by (destruct dd; [contradiction | reflexivity]).
  rewrite Tp, Td. cbn [negb orb].
  split; [reflexivity|].
  unfold serviceData; cbn [sd_base_price sd_delivery_time_days].
  now rewrite Hp, Hdl, Epf, Edi.
Qed.

Lemma plain_numerals_are_posted_exactly_witness :
  exists sd,
    posts (handleSubmit
             (Scenario.editing
                (Scenario.draft "Logo Design" "I design logos" "40" "7")))
    = posts (Scenario.editing
               (Scenario.draft "Logo Design" "I design logos" "40" "7"))
      ++ [sd]
    /\ sd_base_price sd = integer (digits_value 10 [4; 0]%N)
    /\ sd_delivery_time_days sd = integer (digits_value 10 [7]%N).
Proof.
  apply (plain_numerals_are_posted_exactly
           (Scenario.editing
              (Scenario.draft "Logo Design" "I design logos" "40" "7"))
           [4; 0]%N [7]%N);
    try reflexivity;
    try (repeat constructor; fail);
    try (vm_compute; split; reflexivity).
Defined.

(** X9.  The page shows the form to a signed-in creator and the
    "Access Denied" box to everybody else, and the navigation bar
    offers the "Create Service" link to exactly the users to whom the
    page shows the form. *)
Theorem create_link_matches_access :
  forall user : option Auth.User,
    (render user = Form
     <-> exists u, user = Some u /\ Auth.user_type u = lit "creator")
    /\ (In (Navbar.Link "/create-service" "Create Service")
           (Navbar.desktop_items user)
        <-> render user = Form).
Proof.
  intros [u|]; unfold render, Navbar.desktop_items; simpl.
  - destruct (str_eqb (Auth.user_type u) (lit "creator")) eqn:E.
    + apply JSFacts.str_eqb_eq in E. split.
      * split; [intros _; now exists u | reflexivity].
      * split; [reflexivity | intros _; right; right; now left].
    + apply JSFacts.str_eqb_neq in E. split.
      * split; [discriminate|].
        intros (u' & Hu & Hc). injection Hu as <-. contradiction.
      * split; [|discriminate].
        simpl. intros [H | [H | [H | [H | []]]]]; discriminate.
  - split.
    + split; [discriminate | intros (u & Hu & _); discriminate].
    + split; [|discriminate].
      intros [H | [H | [H | []]]]; discriminate.
Qed.

End DraftFacts.

(* ================================================================== *)
(** * The detail page and the order action                            *)
(* ================================================================== *)

Module DetailFacts.

Import JS Runtime ServiceDetail DetailPage.

Lemma app_one_not_self {A : Type} (l : list A) (x : A) : l ++ [x] <> l.
Proof.
  intros H. apply (f_equal (@List.length A)) in H.
  rewrite length_app in H. simpl in H. lia.
Qed.

Lemma truthy_trim (s : str) : truthy (trim s) = negb (blank s).
Proof.
  destruct (blank s) eqn:E.
  - apply TextFacts.trim_blank in E. now rewrite E.
  - destruct (trim s) eqn:Et; [|reflexivity].
    apply TextFacts.trim_blank in Et. congruence.
Qed.

(** Breaks goals and hypotheses about who the visitor is into their
    parts and closes the cases that are contradictory. *)
Ltac cases_of_visitor :=
  repeat match goal with
         | |- _ /\ _ => split
         | |- _ <-> _ => split
         | |- forall _, _ => intro
         | H : exists _, _ |- _ => destruct H
         | H : _ /\ _ |- _ => destruct H
         | H : Some _ = Some _ |- _ => injection H as H; subst
         | H : Some _ = None |- _ => discriminate H
         | H : None = Some _ |- _ => discriminate H
         | H : ?l ++ [_] = ?l |- _ => destruct (app_one_not_self _ _ H)
         | H : ?l = ?l ++ [_] |- _ =>
             destruct (app_one_not_self _ _ (eq_sym H))
         end;
  try discriminate; try contradiction; try congruence;
  try reflexivity; try (eexists; repeat split; eauto; fail).

Lemma sidebar_order_form (user : option Auth.User) (s : Service) :
  render_sidebar user s = OrderForm ->
  exists u, user = Some u
            /\ Auth.user_type u = lit "buyer"
            /\ Auth.id u <> creator_id s.
Proof.
  destruct user as [u|]; unfold render_sidebar; [|discriminate].
  destruct (str_eqb (Auth.user_type u) (lit "buyer")) eqn:Eb;
    [apply JSFacts.str_eqb_eq in Eb | apply JSFacts.str_eqb_neq in Eb];
    (destruct (str_eqb (Auth.id u) (creator_id s)) eqn:Eo;
     [apply JSFacts.str_eqb_eq in Eo | apply JSFacts.str_eqb_neq in Eo]);
    cbn [andb negb]; try discriminate.
  - intros _. now exists u.
  - destruct (str_eqb (Auth.user_type u) (lit "creator")); discriminate.
Qed.

(** X10.  Who sees what in the side bar.  The order form is shown to
    the signed-in buyers who do not own the listing and to nobody
    else; whoever owns the listing, whatever the role, is shown "This
    is your service"; a visitor who is not signed in is asked to sign
    in. *)
Theorem sidebar_table :
  forall (user : option Auth.User) (s : Service),
    (render_sidebar user s = OrderForm
     <-> exists u, user = Some u
                   /\ Auth.user_type u = lit "buyer"
                   /\ Auth.id u <> creator_id s)
    /\ (render_sidebar user s = OwnService
        <-> exists u, user = Some u /\ Auth.id u = creator_id s)
    /\ (user = None -> render_sidebar user s = SignIn).
Proof.
  intros [u|] s; unfold render_sidebar; [|cases_of_visitor].
  destruct (str_eqb (Auth.user_type u) (lit "buyer")) eqn:Eb;
    [apply JSFacts.str_eqb_eq in Eb | apply JSFacts.str_eqb_neq in Eb];
    (destruct (str_eqb (Auth.id u) (creator_id s)) eqn:Eo;
     [apply JSFacts.str_eqb_eq in Eo | apply JSFacts.str_eqb_neq in Eo]);
    cbn [andb negb].
  - cases_of_visitor.
  - cases_of_visitor.
  - cases_of_visitor.
  - destruct (str_eqb (Auth.user_type u) (lit "creator"));
      cases_of_visitor.
Qed.

Lemma sidebar_table_witness :
  render_sidebar None Scenario.logo_service = SignIn.
Proof.
  apply (sidebar_table None Scenario.logo_service). reflexivity.
Defined.

(** X11.  The order action.  It acknowledges the order, with the "will
    be available soon" alert, exactly when the visitor is a signed-in
    buyer, the requirements are not blank and a listing is loaded; a
    visitor who is not signed in is sent to the login view, a user who
    is not a buyer is told that only buyers can place orders, a buyer
    with blank requirements is asked for them.  The listing, the
    requirements text and the requests outstanding are never
    changed. *)
Theorem order_action_table :
  forall (user : option Auth.User) (st : State),
    (alerts (handleOrder user st)
     = alerts st
       ++ [lit "Order functionality will be available soon! Your request has been noted."]
     <-> (exists u, user = Some u /\ Auth.user_type u = lit "buyer")
         /\ blank (orderRequirements st) = false
         /\ service st <> None)
    /\ (user = None ->
        navigated (handleOrder user st) = Some (lit "/login")
        /\ alerts (handleOrder user st) = alerts st
        /\ error (handleOrder user st) = error st)
    /\ (forall u, user = Some u -> Auth.user_type u <> lit "buyer" ->
        error (handleOrder user st) = lit "Only buyers can place orders"
        /\ alerts (handleOrder user st) = alerts st)
    /\ (forall u, user = Some u -> Auth.user_type u = lit "buyer" ->
        blank (orderRequirements st) = true ->
        error (handleOrder user st)
        = lit "Please provide order requirements"
        /\ alerts (handleOrder user st) = alerts st)
    /\ service (handleOrder user st) = service st
    /\ orderRequirements (handleOrder user st) = orderRequirements st
    /\ fetches (handleOrder user st) = fetches st.
Proof.
  intros user st. unfold handleOrder. rewrite truthy_trim, negb_involutive.
  destruct user as [u|]; [|simpl; cases_of_visitor].
  destruct (str_eqb (Auth.user_type u) (lit "buyer")) eqn:Eb;
    [apply JSFacts.str_eqb_eq in Eb | apply JSFacts.str_eqb_neq in Eb];
    cbn [negb]; [|simpl; cases_of_visitor].
  destruct (blank (orderRequirements st)) eqn:Er;
    [simpl; cases_of_visitor|].
  cbn [service setError setOrderLoading].
  destruct (service st) as [s|] eqn:Es; simpl; cases_of_visitor.
Qed.

Lemma order_action_table_witness :
  navigated (handleOrder None (mounted (lit "s-1")))
  = Some (lit "/login").
Proof.
  apply (order_action_table None (mounted (lit "s-1"))). reflexivity.
Defined.

Lemma shows_order_form_inv (user : option Auth.User) (st : State) :
  shows_order_form user st = true ->
  loading st = false
  /\ exists s, service st = Some s /\ render_sidebar user s = OrderForm.
Proof.
  unfold shows_order_form, render.
  destruct (loading st); [discriminate|].
  destruct (service st) as [s|].
  - rewrite andb_false_r.
    destruct (render_sidebar user s) eqn:E; try discriminate.
    intros _. split; [reflexivity | now exists s].
  - rewrite andb_true_r. destruct (truthy (error st)); discriminate.
Qed.

(** X12.  Whenever the "Order Now" button is rendered and not
    disabled, pressing it acknowledges the order: the alert is raised,
    the error is cleared, and none of the refusals of the order action
    can occur. *)
Theorem enabled_order_is_acknowledged :
  forall (user : option Auth.User) (st : State),
    enabled user st OrderClicked = true ->
    alerts (handleOrder user st)
    = alerts st
      ++ [lit "Order functionality will be available soon! Your request has been noted."]
    /\ error (handleOrder user st) = []
    /\ orderLoading (handleOrder user st) = false
    /\ navigated (handleOrder user st) = navigated st.
Proof.
  intros user st En. simpl in En.
  apply andb_true_iff in En as [Hform Hbtn].
  apply shows_order_form_inv in Hform as (_ & s & Hs & Hside).
  apply negb_true_iff in Hbtn. unfold order_disabled in Hbtn.
  apply orb_false_iff in Hbtn as [_ Hreq].
  apply (sidebar_order_form user s) in Hside as (u & -> & Hb & _).
  unfold handleOrder. rewrite Hb, JSFacts.str_eqb_refl. cbn [negb].
  rewrite Hreq. cbn [service setError setOrderLoading]. rewrite Hs.
  now repeat split.
Qed.

Lemma enabled_order_is_acknowledged_witness :
  error (handleOrder (Some Scenario.bob)
           (setOrderRequirements (lit "A logo, please")
              (fetch_fulfilled 0 Scenario.logo_service
                 (mounted (lit "s-1")))))
  = [].
Proof.
  apply (enabled_order_is_acknowledged (Some Scenario.bob)
           (setOrderRequirements (lit "A logo, please")
              (fetch_fulfilled 0 Scenario.logo_service
                 (mounted (lit "s-1"))))).
  reflexivity.
Defined.

(** ** The listing behind the detail view *)

Lemma fetch_fulfilled_inv (k : nat) (data : Service) (st : State) :
  k < List.length (fetches st) ->
  service (fetch_fulfilled k data st) = Some data
  /\ loading (fetch_fulfilled k data st) = false
  /\ error (fetch_fulfilled k data st) = error st.
Proof.
  intros H. unfold fetch_fulfilled.
  destruct (nth_error (fetches st) k) eqn:E;
    [now repeat split | apply nth_error_None in E; lia].
Qed.

Lemma fetch_rejected_inv (k : nat) (st : State) :
  k < List.length (fetches st) ->
  service (fetch_rejected k st) = service st
  /\ loading (fetch_rejected k st) = false
  /\ error (fetch_rejected k st) = lit "Service not found".
Proof.
  intros H. unfold fetch_rejected.
  destruct (nth_error (fetches st) k) eqn:E;
    [now repeat split | apply nth_error_None in E; lia].
Qed.

Lemma handleOrder_keeps_service (user : option Auth.User) (st : State) :
  service (handleOrder user st) = service st.
Proof.
  unfold handleOrder. destruct user as [u|]; [|reflexivity].
  destruct (negb (str_eqb (Auth.user_type u) (lit "buyer")));
    [reflexivity|].
  destruct (negb (truthy (trim (orderRequirements st))));
    [reflexivity|].
  cbn [service setError setOrderLoading].
  destruct (service st) eqn:E; simpl; exact E.
Qed.

Lemma step_keeps_listing (user : option Auth.User) (st : State)
    (ev : event) :
  enabled user st ev = true ->
  has_listing_or_error st -> has_listing_or_error (step user st ev).
Proof.
  unfold has_listing_or_error. intros En Inv.
  destruct ev as [id | k data | k | text | | |]; simpl in *.
  - exact Inv.
  - apply Nat.ltb_lt in En.
    destruct (fetch_fulfilled_inv k data st En) as (-> & _).
    right. left. discriminate.
  - apply Nat.ltb_lt in En.
    destruct (fetch_rejected_inv k st En) as (_ & _ & ->).
    right. right. discriminate.
  - exact Inv.
  - apply andb_true_iff in En as [Hform _].
    apply shows_order_form_inv in Hform as (_ & s & Hs & _).
    right. left.
    rewrite (handleOrder_keeps_service user st). congruence.
  - exact Inv.
  - exact Inv.
Qed.

Lemma run_keeps_listing (user : option Auth.User) (evs : list event) :
  forall st, possible user st evs = true ->
  has_listing_or_error st -> has_listing_or_error (run user st evs).
Proof.
  induction evs as [|ev evs IH]; intros st Hp Inv; [exact Inv|].
  simpl in Hp. apply andb_true_iff in Hp as [En Hp].
  simpl. apply IH; [exact Hp | now apply step_keeps_listing].
Qed.

(** X13.  The detail view is never rendered without a listing: from
    the moment the page is mounted, whatever the route changes, the
    answers and the failures of the GETs, and whatever the visitor
    does with the controls that are on screen, reading the fields of
    the listing does not throw. *)
Theorem detail_view_has_a_listing :
  forall (user : option Auth.User) (id : str) (evs : list event),
    possible user (mounted id) evs = true ->
    render user (run user (mounted id) evs) <> TypeError.
Proof.
  intros user id evs Hp.
  assert (Inv : has_listing_or_error (run user (mounted id) evs)).
  { apply run_keeps_listing; [exact Hp | now left]. }
  unfold render. destruct Inv as [-> | [Hs | He]]; [discriminate | |].
  - destruct (loading _); [discriminate|].
    destruct (service _) as [s|]; [|contradiction].
    rewrite andb_false_r. discriminate.
  - destruct (loading _); [discriminate|].
    destruct (service _) as [s|].
    + rewrite andb_false_r. discriminate.
    + apply JSFacts.truthy_nonempty in He. rewrite He. discriminate.
Qed.

Lemma detail_view_has_a_listing_witness :
  render (Some Scenario.bob)
    (run (Some Scenario.bob) (mounted (lit "s-1"))
       [FetchFulfilled 0 Scenario.logo_service;
        RequirementsTyped (lit "A logo, please"); OrderClicked])
  <> TypeError.
Proof.
  apply (detail_view_has_a_listing (Some Scenario.bob) (lit "s-1")
           [FetchFulfilled 0 Scenario.logo_service;
            RequirementsTyped (lit "A logo, please"); OrderClicked]).
  reflexivity.
Defined.

(** X14.  A failed GET shows "Service Not Found" only when no listing
    has been loaded before.  When the route changes to a listing that
    cannot be fetched while another listing is on screen, that other
    listing stays on screen, with the error set. *)
Theorem failed_fetch_keeps_old_listing :
  forall (user : option Auth.User) (st : State) (k : nat),
    k < List.length (fetches st) ->
    error (fetch_rejected k st) = lit "Service not found"
    /\ (service st = None -> render user (fetch_rejected k st) = NotFound)
    /\ (forall s, service st = Some s ->
          render user (fetch_rejected k st)
          = Detail s (render_sidebar user s)).
Proof.
  intros user st k Hk.
  destruct (fetch_rejected_inv k st Hk) as (Es & El & Ee).
  unfold render. rewrite El, Es, Ee.
  repeat split.
  - now intros ->.
  - now intros s ->.
Qed.

Lemma failed_fetch_keeps_old_listing_witness :
  render (Some Scenario.bob)
    (fetch_rejected 0
       (fetchService (lit "s-404")
          (fetch_fulfilled 0 Scenario.logo_service (mounted (lit "s-1")))))
  = Detail Scenario.logo_service
      (render_sidebar (Some Scenario.bob) Scenario.logo_service).
Proof.
  apply (failed_fetch_keeps_old_listing (Some Scenario.bob)
           (fetchService (lit "s-404")
              (fetch_fulfilled 0 Scenario.logo_service
                 (mounted (lit "s-1"))))
           0).
  - simpl. lia.
  - reflexivity.
Defined.

End DetailFacts.

(* ================================================================== *)
(** * More facts about the catalog                                    *)
(* ================================================================== *)

Module CatalogFacts.

Import JS Runtime Marketplace Catalog.

(** ** The query string *)

Lemma query_params_eq (f : Filters) :
  query_params f
  = (if truthy (search f) then [(lit "search", search f)] else [])
    ++ (if truthy (category f) then [(lit "category", category f)]
        else [])
    ++ (if truthy (minPrice f) then [(lit "min_price", minPrice f)]
        else [])
    ++ (if truthy (maxPrice f) then [(lit "max_price", maxPrice f)]
        else []).
Proof.
  unfold query_params, append_if.
  destruct (truthy (search f)), (truthy (category f)),
    (truthy (minPrice f)), (truthy (maxPrice f)); reflexivity.
Qed.

Lemma query_params_In (f : Filters) (k v : str) :
  In (k, v) (query_params f) ->
  v <> []
  /\ ((k = lit "search" /\ v = search f)
      \/ (k = lit "category" /\ v = category f)
      \/ (k = lit "min_price" /\ v = minPrice f)
      \/ (k = lit "max_price" /\ v = maxPrice f)).
Proof.
  rewrite query_params_eq. intros H.
  repeat (apply in_app_or in H as [H | H]).
  - destruct (truthy (search f)) eqn:E; [|destruct H].
    destruct H as [H | []]. injection H as <- <-.
    split; [now apply JSFacts.truthy_nonempty | tauto].
  - destruct (truthy (category f)) eqn:E; [|destruct H].
    destruct H as [H | []]. injection H as <- <-.
    split; [now apply JSFacts.truthy_nonempty | tauto].
  - destruct (truthy (minPrice f)) eqn:E; [|destruct H].
    destruct H as [H | []]. injection H as <- <-.
    split; [now apply JSFacts.truthy_nonempty | tauto].
  - destruct (truthy (maxPrice f)) eqn:E; [|destruct H].
    destruct H as [H | []]. injection H as <- <-.
    split; [now apply JSFacts.truthy_nonempty | tauto].
Qed.

Lemma query_params_sent (f : Filters) :
  (search f <> [] -> In (lit "search", search f) (query_params f))
  /\ (category f <> [] ->
      In (lit "category", category f) (query_params f))
  /\ (minPrice f <> [] ->
      In (lit "min_price", minPrice f) (query_params f))
  /\ (maxPrice f <> [] ->
      In (lit "max_price", maxPrice f) (query_params f)).
Proof.
  rewrite query_params_eq.
  split; [|split; [|split]]; intros H;
    apply JSFacts.truthy_nonempty in H; rewrite H;
    repeat (apply in_or_app; first [left; now left | right]).
  now left.
Qed.

Lemma query_params_none (f : Filters) :
  query_params f = [] <-> f = no_filters.
Proof.
  rewrite query_params_eq. destruct f as [s c lo hi].
  cbn [search category minPrice maxPrice]. unfold no_filters.
  destruct s, c, lo, hi; cbn [truthy app];
    split; intros H; try reflexivity; discriminate H.
Qed.

(** X15.  The query string holds one parameter for each filter that is
    not the empty string, with the text of the filter as its value, in
    the order search, category, minimum price, maximum price; a filter
    that is the empty string sends nothing, so that with no filter set
    the request has no parameter at all.  The two prices are sent as
    typed, whichever is larger. *)
Theorem query_has_the_filters_that_are_set :
  forall f : Filters,
    (forall k v, In (k, v) (query_params f) ->
       v <> []
       /\ ((k = lit "search" /\ v = search f)
           \/ (k = lit "category" /\ v = category f)
           \/ (k = lit "min_price" /\ v = minPrice f)
           \/ (k = lit "max_price" /\ v = maxPrice f)))
    /\ (minPrice f <> [] ->
        In (lit "min_price", minPrice f) (query_params f))
    /\ (maxPrice f <> [] ->
        In (lit "max_price", maxPrice f) (query_params f))
    /\ (search f <> [] -> In (lit "search", search f) (query_params f))
    /\ (category f <> [] ->
        In (lit "category", category f) (query_params f))
    /\ (query_params f = [] <-> f = no_filters)
    /\ map fst (query_params f)
       = filter (fun k => existsb (str_eqb k) (map fst (query_params f)))
           [lit "search"; lit "category"; lit "min_price";
            lit "max_price"].
Proof.
  intros f.
  destruct (query_params_sent f) as (Hs & Hc & Hlo & Hhi).
  split; [apply query_params_In|].
  split; [exact Hlo|]. split; [exact Hhi|].
  split; [exact Hs|]. split; [exact Hc|].
  split; [apply query_params_none|].
  rewrite query_params_eq.
  destruct (truthy (search f)), (truthy (category f)),
    (truthy (minPrice f)), (truthy (maxPrice f)); reflexivity.
Qed.

Lemma query_has_the_filters_that_are_set_witness :
  In (lit "min_price", lit "50")
    (query_params (set_filter MinPrice (lit "50")
                     (set_filter MaxPrice (lit "10") no_filters))).
Proof.
  apply (query_has_the_filters_that_are_set
           (set_filter MinPrice (lit "50")
              (set_filter MaxPrice (lit "10") no_filters))).
  discriminate.
Defined.

(** ** Requests and answers over a whole session *)

Section Session.

Variable Item : Type.
Implicit Types (st : State Item) (ev : event Item)
  (evs : list (event Item)).

Lemma well_numbered_fetch st :
  well_numbered st -> well_numbered (fetchServices st).
Proof.
  intros [Hlt Hnd]. split; simpl.
  - apply Forall_app. split.
    + eapply Forall_impl; [|exact Hlt]. simpl. intros r Hr. lia.
    + constructor; [simpl; lia | constructor].
  - rewrite map_app. simpl.
    apply NoDup_app; [exact Hnd | repeat constructor; now intros [] |].
    intros n Hn [Hn' | []]. subst n.
    apply in_map_iff in Hn as (r & Hr & Hin).
    rewrite Forall_forall in Hlt. specialize (Hlt r Hin). lia.
Qed.

Lemma distinct_after_filter (keep : Request -> bool)
    (rs : list Request) :
  NoDup (map seq rs) -> NoDup (map seq (filter keep rs)).
Proof.
  intros Hnd. induction rs as [|r rs IH]; [exact Hnd|].
  simpl in Hnd. apply NoDup_cons_iff in Hnd as [Hfresh Hrest].
  simpl. destruct (keep r); [|now apply IH].
  simpl. apply NoDup_cons_iff. split; [|now apply IH].
  intros Hin. apply Hfresh.
  apply in_map_iff in Hin as (r' & Heq & Hin).
  apply filter_In in Hin as [Hin _].
  apply in_map_iff. now exists r'.
Qed.

Lemma well_numbered_settle st n (sv : list Item) (b : bool) :
  well_numbered st ->
  well_numbered {| services := sv; loading := b; filters := filters st;
                   issued := issued st; inflight := settle n st |}.
Proof.
  intros [Hlt Hnd]. split; simpl; unfold settle.
  - rewrite Forall_forall in *. intros r Hr.
    apply filter_In in Hr as [Hr _]. now apply Hlt.
  - now apply distinct_after_filter.
Qed.

Lemma well_numbered_step st ev :
  well_numbered st -> well_numbered (step st ev).
Proof.
  intros Inv. destruct ev as [nm v | | n d | n]; simpl.
  - now apply well_numbered_fetch.
  - now apply well_numbered_fetch.
  - unfold resolved. destruct (is_inflight n st); [|exact Inv].
    now apply well_numbered_settle.
  - unfold rejected. destruct (is_inflight n st); [|exact Inv].
    now apply well_numbered_settle.
Qed.

Lemma issued_step st ev :
  issued (step st ev) = issued st + changes [ev].
Proof.
  destruct ev as [nm v | | n d | n]; simpl; unfold changes; simpl;
    try lia.
  - unfold resolved. destruct (is_inflight n st); simpl; lia.
  - unfold rejected. destruct (is_inflight n st); simpl; lia.
Qed.

Lemma changes_cons ev evs : changes (ev :: evs) = changes [ev] + changes evs.
Proof.
  unfold changes. simpl.
  destruct ev; simpl; reflexivity.
Qed.

Lemma answers_cons ev evs : answers (ev :: evs) = answers [ev] ++ answers evs.
Proof. unfold answers. simpl. now rewrite app_nil_r. Qed.

Lemma session_invariants evs : forall st,
  well_numbered st ->
  well_numbered (run st evs)
  /\ issued (run st evs) = issued st + changes evs
  /\ (services (run st evs) = services st
      \/ In (services (run st evs)) (answers evs)).
Proof.
  induction evs as [|ev evs IH]; intros st Inv.
  - simpl. unfold changes; simpl. split; [exact Inv|].
    split; [lia | now left].
  - change (run st (ev :: evs)) with (run (step st ev) evs).
    destruct (IH (step st ev) (well_numbered_step st ev Inv))
      as (Hw & Hi & Hs).
    split; [exact Hw|]. split.
    + rewrite Hi, issued_step, (changes_cons ev evs). lia.
    + rewrite (answers_cons ev evs).
      destruct Hs as [Hs | Hs]; [|right; apply in_or_app; now right].
      rewrite Hs.
      destruct ev as [nm v | | n d | n]; simpl; try (now left).
      * unfold resolved. destruct (is_inflight n st); simpl;
          [right; now left | now left].
      * unfold rejected. destruct (is_inflight n st); simpl; now left.
Qed.

End Session.

(** X16.  Over a whole session of the catalog: every change of a
    filter, and every "Clear Filters", sends one more request, none is
    held back or cancelled; the requests in flight carry distinct
    numbers; and the listings on screen are at every moment either
    the initial empty list or, as a whole, the data of one of the
    answers received. *)
Theorem session_of_the_catalog :
  forall (Item : Type) (evs : list (event Item)),
    issued (run (mounted Item) evs) = 1 + changes evs
    /\ NoDup (map seq (inflight (run (mounted Item) evs)))
    /\ Forall (fun r => seq r < issued (run (mounted Item) evs))
         (inflight (run (mounted Item) evs))
    /\ (services (run (mounted Item) evs) = []
        \/ In (services (run (mounted Item) evs)) (answers evs)).
Proof.
  intros Item evs.
  assert (Inv : well_numbered (mounted Item)).
  { split; simpl; [repeat constructor | repeat constructor; now intros []]. }
  destruct (session_invariants Item evs (mounted Item) Inv)
    as ((Hlt & Hnd) & Hi & Hs).
  repeat split; assumption.
Qed.

(** X17.  The spinner follows the answer that came last, not the
    requests in flight: when one of two requests in flight settles, by
    an answer or by a failure, [loading] is cleared and the grid is
    rendered although the other request is still in flight. *)
Theorem spinner_stops_at_first_answer :
  forall (Item : Type) (st : State Item) (r r' : Request)
         (d : list Item),
    In r (inflight st) -> In r' (inflight st) -> seq r <> seq r' ->
    loading (resolved (seq r) d st) = false
    /\ render (resolved (seq r) d st) <> Spinner Item
    /\ In r' (inflight (resolved (seq r) d st))
    /\ loading (rejected (seq r) st) = false
    /\ In r' (inflight (rejected (seq r) st)).
Proof.
  intros Item st r r' d Hr Hr' Hne.
  pose proof (MarketplaceFacts.is_inflight_In st r Hr) as Hin.
  assert (Hkeep : In r' (settle (seq r) st)).
  { unfold settle. apply filter_In. split; [exact Hr'|].
    apply negb_true_iff, Nat.eqb_neq. congruence. }
  unfold resolved, rejected, render. rewrite Hin. simpl.
  repeat split; try assumption.
  destruct (Nat.ltb 0 (List.length d)); discriminate.
Qed.

Lemma spinner_stops_at_first_answer_witness :
  loading (resolved 2 Scenario.results_ab Scenario.typed_a_then_ab)
  = false.
Proof.
  apply (spinner_stops_at_first_answer str Scenario.typed_a_then_ab
           {| seq := 2; params := [(lit "search", lit "ab")] |}
           {| seq := 1; params := [(lit "search", lit "a")] |}
           Scenario.results_ab).
  - right; right; left; reflexivity.
  - right; left; reflexivity.
  - discriminate.
Defined.

(** X18.  A query that fails changes nothing but the spinner: the
    listings stay as they were and no error is kept, so the page
    renders exactly as if the answer had repeated the listings on
    screen; with nothing on screen it says "No services found", as for
    an empty answer. *)
Theorem failed_query_looks_like_no_change :
  forall (Item : Type) (st : State Item) (n : nat),
    is_inflight n st = true ->
    services (rejected n st) = services st
    /\ filters (rejected n st) = filters st
    /\ rejected n st = resolved n (services st) st
    /\ (services st = [] ->
        render (rejected n st) = NoServices Item
        /\ render (rejected n st) = render (resolved n [] st)).
Proof.
  intros Item st n Hin. unfold rejected, resolved, render.
  rewrite Hin. simpl.
  split; [reflexivity|]. split; [reflexivity|]. split; [reflexivity|].
  intros ->. split; reflexivity.
Qed.

Lemma failed_query_looks_like_no_change_witness :
  render (rejected 0 (mounted str)) = NoServices str.
Proof.
  apply (failed_query_looks_like_no_change str (mounted str) 0);
    reflexivity.
Defined.

(** X19.  The category filter of the catalog offers exactly the
    categories of the creation form, in the same order, and the label
    it computes for each of them, by splitting at the hyphens,
    capitalizing each word and joining with spaces, is the label the
    creation form spells out. *)
Theorem category_labels_agree :
  categories = map fst DraftPage.categories
  /\ map category_label categories
     = map (fun c => Some (snd c)) DraftPage.categories.
Proof. split; vm_compute; reflexivity. Qed.

(** X20.  A card shows at most three tags, the first three in order,
    and when there are more it says how many more, so that the tags
    shown and the number announced add up to all the tags; with no
    tags, or none at all, the card shows no tag line. *)
Theorem card_tags_add_up :
  forall tags : list str,
    (tags = [] -> card_tags (Some tags) = None)
    /\ (tags <> [] ->
        exists more,
          card_tags (Some tags) = Some (firstn 3 tags, more)
          /\ List.length (firstn 3 tags) <= 3
          /\ List.length (firstn 3 tags)
             + match more with Some n => n | None => 0 end
             = List.length tags
          /\ (more = None <-> List.length tags <= 3))
    /\ card_tags None = None.
Proof.
  intros tags. split; [now intros ->|]. split; [|reflexivity].
  intros Hne. destruct tags as [|t r]; [contradiction|].
  unfold card_tags.
  destruct (Nat.ltb 3 (List.length (t :: r))) eqn:E.
  - apply Nat.ltb_lt in E. eexists. split; [reflexivity|].
    rewrite length_firstn. repeat split; try lia; discriminate.
  - apply Nat.ltb_ge in E. eexists. split; [reflexivity|].
    rewrite length_firstn. repeat split; try lia.
Qed.

Lemma card_tags_add_up_witness :
  exists more,
    card_tags (Some [lit "logo"; lit "brand"; lit "art"; lit "print"])
    = Some (firstn 3 [lit "logo"; lit "brand"; lit "art"; lit "print"],
            more)
    /\ List.length
         (firstn 3 [lit "logo"; lit "brand"; lit "art"; lit "print"]) <= 3
    /\ List.length
         (firstn 3 [lit "logo"; lit "brand"; lit "art"; lit "print"])
       + match more with Some n => n | None => 0 end
       = List.length [lit "logo"; lit "brand"; lit "art"; lit "print"]
    /\ (more = None
        <-> List.length [lit "logo"; lit "brand"; lit "art"; lit "print"]
            <= 3).
Proof.
  apply (card_tags_add_up
           [lit "logo"; lit "brand"; lit "art"; lit "print"]).
  discriminate.
Defined.

End CatalogFacts.

(* ================================================================== *)
(** * The navigation bar and the dashboard                            *)
(* ================================================================== *)

Module NavbarFacts.

Import JS Navbar.

(** X21.  The menu opened on a narrow screen lists the entries of the
    wide-screen bar, in the same order, and the closed menu lists
    none.  The logout button is offered exactly to signed-in users,
    the login and sign-up links exactly to visitors who are not signed
    in, and the marketplace link to everybody. *)
Theorem mobile_menu_matches_desktop :
  forall user : option Auth.User,
    mobile_items true user = desktop_items user
    /\ mobile_items false user = []
    /\ (In LogoutButton (desktop_items user) <-> user <> None)
    /\ (In (Link "/login" "Login") (desktop_items user) <-> user = None)
    /\ (In (Link "/register" "Sign Up") (desktop_items user)
        <-> user = None)
    /\ In (Link "/marketplace" "Marketplace") (desktop_items user).
Proof.
  intros [u|]; unfold mobile_items, desktop_items.
  - destruct (str_eqb (Auth.user_type u) (lit "creator")); simpl;
      (split; [reflexivity|]); (split; [reflexivity|]);
      (split; [split; [discriminate | tauto]|]);
      (split; [split; [|discriminate]|]);
      try (split; [split; [|discriminate]|]);
      try (now left);
      intros H; repeat (destruct H as [H | H]; try discriminate H);
      contradiction.
  - simpl.
    split; [reflexivity|]. split; [reflexivity|].
    split.
    + split; [|intros H; now contradiction H].
      intros H; repeat (destruct H as [H | H]; try discriminate H);
        contradiction.
    + split; [split; [reflexivity | tauto]|].
      split; [split; [reflexivity | tauto]|]. now left.
Qed.

End NavbarFacts.

Module DashboardFacts.

Import JS Dashboard.

Section Component.

Variable Item : Type.
Implicit Types (st : State Item) (ev : event Item).

Lemma counted_step st ev : counted st -> counted (step st ev).
Proof.
  intros [Hn Ha].
  destruct ev as [user | k data | k status | k data | k]; simpl.
  - unfold fetchData. destruct user as [u|]; [|now split].
    destruct (str_eqb (Auth.user_type u) (lit "creator")); now split.
  - unfold profile_fulfilled.
    destruct (nth_error (awaiting st) k) as [[u|u]|]; now split.
  - unfold profile_rejected.
    destruct (nth_error (awaiting st) k) as [[u|u]|]; now split.
  - unfold services_fulfilled.
    destruct (nth_error (awaiting st) k) as [[u|u]|]; now split.
  - unfold services_rejected.
    destruct (nth_error (awaiting st) k) as [[u|u]|]; now split.
Qed.

Lemma counted_run (evs : list (event Item)) : forall st,
  counted st -> counted (run st evs).
Proof.
  induction evs as [|ev evs IH]; intros st Inv; [exact Inv|].
  change (run st (ev :: evs)) with (run (step st ev) evs).
  apply IH. now apply counted_step.
Qed.

End Component.

(** X22.  At every moment of the dashboard the "Services" counter is
    the number of services held, and the "Active Orders" counter is
    zero: nothing ever sets it.  The cards of "Your Services" are the
    first six services, all of them when there are six or fewer. *)
Theorem counters_of_the_dashboard :
  forall (Item : Type) (evs : list (event Item)),
    totalServices (stats (run (initial Item) evs))
    = List.length (services (run (initial Item) evs))
    /\ activeOrders (stats (run (initial Item) evs)) = 0
    /\ List.length (recent (run (initial Item) evs))
       = Nat.min 6 (totalServices (stats (run (initial Item) evs)))
    /\ (totalServices (stats (run (initial Item) evs)) <= 6 ->
        recent (run (initial Item) evs)
        = services (run (initial Item) evs)).
Proof.
  intros Item evs.
  assert (Inv : counted (run (initial Item) evs))
    by (apply counted_run; now split).
  destruct Inv as [Hn Ha]. unfold recent.
  split; [exact Hn|]. split; [exact Ha|].
  split; [now rewrite length_firstn, Hn|].
  intros H. apply firstn_all2. lia.
Qed.

Lemma counters_of_the_dashboard_witness :
  recent (run (initial nat)
            [UserChanged nat (Some Scenario.ann);
             ProfileRejected nat 0 (Some 404);
             ServicesFulfilled 0 [1; 2; 3]])
  = services (run (initial nat)
                [UserChanged nat (Some Scenario.ann);
                 ProfileRejected nat 0 (Some 404);
                 ServicesFulfilled 0 [1; 2; 3]]).
Proof.
  apply (counters_of_the_dashboard nat
           [UserChanged nat (Some Scenario.ann);
            ProfileRejected nat 0 (Some 404);
            ServicesFulfilled 0 [1; 2; 3]]).
  simpl. lia.
Defined.

(** X23.  For a buyer, and for a visitor who is not signed in,
    [fetchData] sends no request and clears [loading] at once; for a
    creator it sends the request for the profile and leaves [loading]
    as it is.  In both cases the profile, the services and the
    counters are not touched. *)
Theorem fetchData_by_role :
  forall (Item : Type) (user : option Auth.User) (st : State Item),
    ((forall u, user = Some u -> Auth.user_type u <> lit "creator") ->
     awaiting (fetchData user st) = awaiting st
     /\ loading (fetchData user st) = false)
    /\ (forall u, user = Some u -> Auth.user_type u = lit "creator" ->
        awaiting (fetchData user st) = awaiting st ++ [ProfileGet u]
        /\ loading (fetchData user st) = loading st)
    /\ profile (fetchData user st) = profile st
    /\ services (fetchData user st) = services st
    /\ stats (fetchData user st) = stats st.
Proof.
  intros Item user st. unfold fetchData.
  destruct user as [u|].
  - destruct (str_eqb (Auth.user_type u) (lit "creator")) eqn:E;
      [apply JSFacts.str_eqb_eq in E | apply JSFacts.str_eqb_neq in E].
    + split; [intros H; now destruct (H u eq_refl)|].
      split; [|now repeat split].
      intros u' Hu _. injection Hu as <-. now split.
    + split; [intros _; now split|].
      split; [|now repeat split].
      intros u' Hu Hc. injection Hu as <-. contradiction.
  - split; [intros _; now split|].
    split; [|now repeat split].
    intros u' Hu. discriminate Hu.
Qed.

Lemma fetchData_by_role_witness :
  loading (fetchData (Some Scenario.bob) (initial nat)) = false.
Proof.
  apply (fetchData_by_role nat (Some Scenario.bob) (initial nat)).
  intros u Hu. injection Hu as <-. discriminate.
Defined.

(** X24.  Whatever becomes of the request for the profile, the
    request for the services of the same creator follows, and
    [loading] stays as it is until that one settles.  A failure of the
    profile request, a 404 like any other, changes nothing else: the
    profile stays unset, the counters stay as they were.  An answer
    stores the profile and copies its earnings and rating into the
    counters. *)
Theorem services_follow_the_profile :
  forall (Item : Type) (st : State Item) (k : nat) (u : Auth.User)
         (data : Profile) (status : option nat),
    nth_error (awaiting st) k = Some (ProfileGet u) ->
    awaiting (profile_fulfilled k data st)
    = replace_nth k (ServicesGet u) (awaiting st)
    /\ awaiting (profile_rejected k status st)
       = replace_nth k (ServicesGet u) (awaiting st)
    /\ nth_error (awaiting (profile_rejected k status st)) k
       = Some (ServicesGet u)
    /\ loading (profile_fulfilled k data st) = loading st
    /\ loading (profile_rejected k status st) = loading st
    /\ profile (profile_rejected k status st) = profile st
    /\ stats (profile_rejected k status st) = stats st
    /\ profile_rejected k status st = profile_rejected k (Some 404) st
    /\ profile (profile_fulfilled k data st) = Some data
    /\ totalEarnings (stats (profile_fulfilled k data st))
       = total_earnings data
    /\ rating (stats (profile_fulfilled k data st))
       = profile_rating data.
Proof.
  intros Item st k u data status Hk.
  unfold profile_fulfilled, profile_rejected. rewrite Hk. simpl.
  repeat split.
  clear data status. revert k Hk.
  induction (awaiting st) as [|p l IH]; intros k Hk;
    [now destruct k|].
  destruct k as [|k]; [reflexivity|]. simpl. now apply IH.
Qed.

Lemma services_follow_the_profile_witness :
  loading (profile_rejected 0 (Some 500)
             (fetchData (Some Scenario.ann) (initial nat)))
  = loading (fetchData (Some Scenario.ann) (initial nat)).
Proof.
  apply (services_follow_the_profile nat
           (fetchData (Some Scenario.ann) (initial nat)) 0 Scenario.ann
           {| total_earnings := zero; profile_rating := zero |}
           (Some 500)).
  reflexivity.
Defined.

(** X25.  The spinner of the dashboard goes away only when a request
    for services settles, or when [fetchData] runs for somebody who is
    not a creator; and when a request for services settles it always
    goes away, even if another call of [fetchData] is still
    waiting. *)
Theorem spinner_of_the_dashboard :
  forall (Item : Type) (st : State Item) (ev : event Item),
    (loading st = true -> loading (step st ev) = false ->
     (exists k data, ev = ServicesFulfilled k data)
     \/ (exists k, ev = ServicesRejected Item k)
     \/ (exists user, ev = UserChanged Item user
                      /\ forall u, user = Some u ->
                                   Auth.user_type u <> lit "creator"))
    /\ (forall k u, nth_error (awaiting st) k = Some (ServicesGet u) ->
        (forall data, loading (services_fulfilled k data st) = false)
        /\ loading (services_rejected k st) = false).
Proof.
  intros Item st ev. split.
  - intros Ht Hf.
    destruct ev as [user | k data | k status | k data | k]; simpl in Hf.
    + right. right. exists user. split; [reflexivity|].
      intros u -> Hc. unfold fetchData in Hf.
      rewrite Hc, JSFacts.str_eqb_refl in Hf. simpl in Hf. congruence.
    + unfold profile_fulfilled in Hf.
      destruct (nth_error (awaiting st) k) as [[u|u]|];
        simpl in Hf; congruence.
    + unfold profile_rejected in Hf.
      destruct (nth_error (awaiting st) k) as [[u|u]|];
        simpl in Hf; congruence.
    + left. now exists k, data.
    + right. left. now exists k.
  - intros k u Hk. unfold services_fulfilled, services_rejected.
    rewrite Hk. now split.
Qed.

Lemma spinner_of_the_dashboard_witness :
  loading (services_rejected 0
             (profile_rejected 0 (Some 404)
                (fetchData (Some Scenario.ann) (initial nat))))
  = false.
Proof.
  apply (proj2 (spinner_of_the_dashboard nat
                  (profile_rejected 0 (Some 404)
                     (fetchData (Some Scenario.ann) (initial nat)))
                  (ServicesRejected nat 0))
           0 Scenario.ann).
  reflexivity.
Defined.

End DashboardFacts.

(* ================================================================== *)
(** * [trim] and [split] as the components use them                   *)
(* ================================================================== *)

Module TextUse.

Import JS Runtime.

Lemma trimStart_parts (s : str) :
  exists a, s = a ++ trimStart s /\ blank a = true.
Proof.
  induction s as [|c r (a & Ha & Hb)]; simpl.
  - now exists [].
  - destruct (is_white_space c) eqn:E.
    + exists (c :: a). split; [simpl; now f_equal|].
      simpl. now rewrite E.
    + now exists [].
Qed.

Lemma blank_rev (s : str) : blank (rev s) = blank s.
Proof.
  unfold blank. apply eq_true_iff_eq.
  rewrite !forallb_forall. split; intros H x Hx; apply H;
    [now apply -> in_rev | now apply <- in_rev].
Qed.

Lemma trimEnd_parts (s : str) :
  exists b, s = trimEnd s ++ b /\ blank b = true.
Proof.
  unfold trimEnd. destruct (trimStart_parts (rev s)) as (a & Ha & Hb).
  exists (rev a). split; [|now rewrite blank_rev].
  rewrite <- rev_app_distr, <- Ha. now rewrite rev_involutive.
Qed.

(** X26.  [trim], applied to the title, the description, each tag and
    the order requirements, removes white space from the two ends and
    nothing else: the input is the trimmed string between two runs of
    white space, the trimmed string neither starts nor ends with white
    space, it is empty exactly when the input is all white space, and
    trimming it again changes nothing. *)
Theorem trim_takes_the_ends_off :
  forall s : str,
    (exists a b, s = a ++ trim s ++ b
                 /\ blank a = true /\ blank b = true)
    /\ (forall c r, trim s = c :: r -> is_white_space c = false)
    /\ (forall r c, trim s = r ++ [c] -> is_white_space c = false)
    /\ (trim s = [] <-> blank s = true)
    /\ trim (trim s) = trim s.
Proof.
  intros s. split; [|split; [|split; [|split]]].
  - destruct (trimStart_parts s) as (a & Ha & Hba).
    destruct (trimEnd_parts (trimStart s)) as (b & Hb & Hbb).
    exists a, b. unfold trim. split; [|now split].
    now rewrite <- Hb.
  - apply TextFacts.trim_head.
  - apply TextFacts.trim_last.
  - apply TextFacts.trim_blank.
  - apply TextFacts.trim_idempotent.
Qed.

Lemma trim_takes_the_ends_off_witness :
  is_white_space 76 = false.
Proof.
  apply (proj1 (proj2 (trim_takes_the_ends_off (lit "  Logo Design ")))
           76%N (lit "ogo Design")).
  reflexivity.
Defined.

(** X27.  [split], applied to the tags input at the commas and to a
    category at the hyphens, cuts at every separator and nowhere
    else: no segment holds the separator, there is one segment more
    than there are separators, and the segments joined again with the
    separator are the input. *)
Theorem split_cuts_at_every_separator :
  forall (sep : N) (s : str),
    Forall (fun seg => ~ In sep seg) (split sep s)
    /\ List.length (split sep s)
       = S (List.length (filter (N.eqb sep) s))
    /\ join [sep] (split sep s) = s.
Proof.
  intros sep s. split; [|split].
  - apply Forall_forall. intros seg.
    apply TextFacts.split_no_separator.
  - induction s as [|c r IH]; [reflexivity|]. simpl.
    rewrite (N.eqb_sym sep c).
    destruct (N.eqb c sep); simpl; [now rewrite IH|].
    destruct (split sep r) as [|h t] eqn:E;
      [now destruct (TextFacts.split_nonempty sep r)|].
    simpl in *. exact IH.
  - apply TextFacts.join_split.
Qed.

End TextUse.
